(** * The cascade reveal of drawn cards (static/js/draw.js)

    The script registers one listener for the document's ready signal.
    The listener takes a snapshot of the elements carrying the class
    [draw-card] and, for the element at position [index], asks the host
    to run [card.classList.add('revealed')] after [index * 700] ms.

    The script itself is eight lines; what it does is decided by the
    three host operations it calls.  They are modelled below as the DOM
    and HTML standards define them: [querySelectorAll] returns a static
    list in tree order, comparing class names without regard to case
    in a quirks-mode document; [setTimeout] appends to the list of
    active timers, and the host reads the delay as a 32-bit integer;
    [classList.add] appends to an ordered set of tokens and writes the
    set back to the class attribute. *)

From Stdlib Require Import ZArith Lia.
From stdpp Require Import base option list gmap strings.

(** ** Documents *)

(** An element is known by its identity (the JS object reference). *)
Definition node := nat.

(** [tree] lists the elements attached to the document in tree order.
    [classAttr] holds the class attribute of an element, already split
    on ASCII whitespace; an element without the attribute has no entry.
    [quirks] tells whether the document is in quirks mode. *)
Record Document := {
  tree : list node;
  classAttr : gmap node (list string);
  quirks : bool;
}.

(** The only selector the script uses is a class selector: the string
    ['.draw-card'] parses to [ClassSelector "draw-card"]. *)
Inductive Selector := ClassSelector (name : string).

(** The closure [() => { card.classList.add('revealed') }], with the
    element reference it captured. *)
Inductive Callback := RevealCard (card : node).

(** An active timer: what to run, the delay that was asked for, and the
    clock reading when it was registered. *)
Record Timer := {
  callback : Callback;
  timeout : Z;
  started : Z;
}.

(** The host calls the script makes, oldest first. *)
Inductive HostCall :=
| CallQuerySelectorAll (sel : Selector)
| CallSetTimeout (cb : Callback) (ms : Z)
| CallClassListAdd (el : node) (tok : string).

(** [timers] are this script's active timers in registration order,
    [now] is the host clock in milliseconds. *)
Record World := {
  doc : Document;
  timers : list Timer;
  calls : list HostCall;
  now : Z;
}.

#[global] Instance Selector_eq_dec : EqDecision Selector.
Proof. solve_decision. Defined.
#[global] Instance Callback_eq_dec : EqDecision Callback.
Proof. solve_decision. Defined.
#[global] Instance Timer_eq_dec : EqDecision Timer.
Proof. solve_decision. Defined.
#[global] Instance HostCall_eq_dec : EqDecision HostCall.
Proof. solve_decision. Defined.

(** ** Host computations: state passing with exceptions *)

Inductive DOMException := SyntaxError | InvalidCharacterError.

Inductive Completion (A : Type) :=
| Normal (a : A)
| Throw (e : DOMException).
Arguments Normal {A} a.
Arguments Throw {A} e.

Definition Host (A : Type) : Type := World → Completion A * World.

Definition ret {A} (a : A) : Host A := λ w, (Normal a, w).

Definition bind {A B} (m : Host A) (k : A → Host B) : Host B := λ w,
  match m w with
  | (Normal a, w') => k a w'
  | (Throw e, w') => (Throw e, w')
  end.

Notation "x <- m ;; k" := (bind m (λ x, k))
  (at level 100, m at next level, right associativity).

Definition log (c : HostCall) (w : World) : World :=
  {| doc := doc w; timers := timers w; calls := calls w ++ [c]; now := now w |}.

(** ** DOMTokenList *)

(** Append to an ordered set: nothing happens when the item is there. *)
Definition set_append (s : list string) (tok : string) : list string :=
  if decide (tok ∈ s) then s else s ++ [tok].

(** The ordered set parser: the tokens of the attribute, first
    occurrences kept, in order. *)
Definition ordered_set_parser (tokens : list string) : list string :=
  foldl set_append [] tokens.

(** [el.classList]: the token set of the element's class attribute. *)
Definition classList (d : Document) (el : node) : list string :=
  ordered_set_parser (default [] (classAttr d !! el)).

Definition is_ascii_whitespace (a : Ascii.ascii) : bool :=
  match Ascii.nat_of_ascii a with
  | 9 | 10 | 12 | 13 | 32 => true
  | _ => false
  end.

Fixpoint has_whitespace (s : string) : bool :=
  match s with
  | EmptyString => false
  | String a rest => is_ascii_whitespace a || has_whitespace rest
  end.

Definition set_classAttr (el : node) (tokens : list string) (w : World) : World :=
  {| doc := {| tree := tree (doc w);
               classAttr := <[el := tokens]> (classAttr (doc w));
               quirks := quirks (doc w) |};
     timers := timers w; calls := calls w; now := now w |}.

(** [el.classList.add(tok)]: reject an empty token or one with
    whitespace, else append it to the token set and serialise the set
    into the class attribute. *)
Definition classList_add (el : node) (tok : string) : Host unit := λ w,
  let w := log (CallClassListAdd el tok) w in
  if decide (tok = "") then (Throw SyntaxError, w)
  else if has_whitespace tok then (Throw InvalidCharacterError, w)
  else (Normal (), set_classAttr el (set_append (classList (doc w) el) tok) w).

(** ** Selectors *)

Definition ascii_lowercase_char (a : Ascii.ascii) : Ascii.ascii :=
  let n := Ascii.nat_of_ascii a in
  if (65 <=? n)%nat && (n <=? 90)%nat then Ascii.ascii_of_nat (n + 32) else a.

Fixpoint ascii_lowercase (s : string) : string :=
  match s with
  | EmptyString => EmptyString
  | String a rest => String (ascii_lowercase_char a) (ascii_lowercase rest)
  end.

(** How a class selector compares its name with a class of the
    element: as written, but in a quirks-mode document without regard
    to the case of the ASCII letters. *)
Definition same_class (quirks_mode : bool) (name cls : string) : Prop :=
  if quirks_mode then ascii_lowercase name = ascii_lowercase cls
  else name = cls.

#[global] Instance same_class_dec q name cls : Decision (same_class q name cls).
Proof. destruct q; simpl; apply _. Defined.

Definition matches (d : Document) (sel : Selector) (el : node) : Prop :=
  match sel with
  | ClassSelector name => Exists (same_class (quirks d) name) (classList d el)
  end.

#[global] Instance matches_dec d sel el : Decision (matches d sel el).
Proof. destruct sel; simpl; apply _. Defined.

(** [document.querySelectorAll(sel)]: a static list of the matching
    elements of the document, in tree order. *)
Definition querySelectorAll (sel : Selector) : Host (list node) := λ w,
  (Normal (filter (matches (doc w) sel) (tree (doc w))),
   log (CallQuerySelectorAll sel) w).

(** ** Timers *)

(** [setTimeout(cb, ms)]: register a one-shot timer.  The handle it
    returns is dropped by the script and is not modelled.  [ms] is the
    number the script passes: [index * 700] is exact in JS arithmetic
    for every position a node list can have.  What the host makes of
    that number is [delay] below. *)
Definition setTimeout (cb : Callback) (ms : Z) : Host unit := λ w,
  (Normal (),
   {| doc := doc w;
      timers := timers w ++ [{| callback := cb; timeout := ms; started := now w |}];
      calls := calls w ++ [CallSetTimeout cb ms];
      now := now w |}).

(** [NodeList.prototype.forEach]: the callback is applied to each item
    with its position, front to back. *)
Fixpoint forEach_from (l : list node) (index : nat)
    (f : node → nat → Host unit) : Host unit :=
  match l with
  | [] => ret ()
  | card :: rest => _ <- f card index ;; forEach_from rest (S index) f
  end.

Definition forEach (l : list node) (f : node → nat → Host unit) : Host unit :=
  forEach_from l 0 f.

(** ** The script *)

Definition draw_card : Selector := ClassSelector "draw-card".
Definition revealed : string := "revealed".

(** The listener registered for [DOMContentLoaded]. *)
Definition DOMContentLoaded : Host unit :=
  cards <- querySelectorAll draw_card ;;
  forEach cards (λ card index,
    setTimeout (RevealCard card) (Z.of_nat index * 700)).

(** What a timer runs when it fires. *)
Definition run_callback (cb : Callback) : Host unit :=
  match cb with
  | RevealCard card => classList_add card revealed
  end.

(** ** The event loop *)

(** The host takes the delay of [setTimeout] as a WebIDL [long]: the
    integer is reduced modulo 2^32 into the range from -2^31 up to
    2^31 - 1. *)
Definition to_long (z : Z) : Z :=
  let r := (z mod 4294967296)%Z in
  if (2147483648 <=? r)%Z then (r - 4294967296)%Z else r.

(** The delay the host works with: the converted number, and zero when
    that is negative. *)
Definition delay (t : Timer) : Z := Z.max 0 (to_long (timeout t)).

(** A timer may not run before its delay has passed. *)
Definition due (t : Timer) : Z := (started t + delay t)%Z.

(** The ordering rule of the HTML timer steps: a timer waits for every
    timer that was registered before it with a delay that is not
    larger.  [k] is the position of [t] in the list of active timers. *)
Definition unblocked (ts : list Timer) (k : nat) (t : Timer) : bool :=
  forallb (λ t', negb (delay t' <=? delay t)%Z) (take k ts).

Record Firing := {
  fired_at : Z;
  fired : Timer;
}.

(** What can happen after the listener has returned: time passes, some
    other code or the user changes the document in any way, or the host
    runs the active timer at position [k]. *)
Inductive Event :=
| Elapse (ms : N)
| Mutate (d : Document)
| Fire (k : nat).

(** Letting [ms] pass and then running the oldest active timer [n]
    times: what a host does that was held up. *)
Definition catch_up (ms : N) (n : nat) : list Event :=
  Elapse ms :: replicate n (Fire 0).

(** One event.  [Fire k] is refused when there is no such timer, when it
    is not due yet, or when an older timer has to go first; the timer
    that runs leaves the list, and the world is the one its callback
    leaves behind, however the callback completes. *)
Definition step (e : Event) (w : World) : option (list Firing * World) :=
  match e with
  | Elapse ms =>
      Some ([], {| doc := doc w; timers := timers w; calls := calls w;
                   now := (now w + Z.of_N ms)%Z |})
  | Mutate d =>
      Some ([], {| doc := d; timers := timers w; calls := calls w;
                   now := now w |})
  | Fire k =>
      match timers w !! k with
      | None => None
      | Some t =>
          if (due t <=? now w)%Z && unblocked (timers w) k t then
            Some ([{| fired_at := now w; fired := t |}],
                  snd (run_callback (callback t)
                         {| doc := doc w; timers := delete k (timers w);
                            calls := calls w; now := now w |}))
          else None
      end
  end.

(** A run is a sequence of events, each of them allowed where it
    happens; it yields the firings in the order they took place. *)
Fixpoint run (es : list Event) (w : World) : option (list Firing * World) :=
  match es with
  | [] => Some ([], w)
  | e :: es' =>
      match step e w with
      | None => None
      | Some (tr, w') =>
          match run es' w' with
          | None => None
          | Some (tr', w'') => Some (tr ++ tr', w'')
          end
      end
  end.

(** ** The page at the ready signal *)

(** The world in which the ready signal is delivered: the parsed
    document, no timer of this script yet, no call made yet. *)
Definition loaded (d : Document) (t0 : Z) : World :=
  {| doc := d; timers := []; calls := []; now := t0 |}.

(** The world the listener leaves behind.  The script's top level only
    registers the listener; the host calls it once, when the document
    has been parsed. *)
Definition ready (d : Document) (t0 : Z) : World :=
  snd (DOMContentLoaded (loaded d t0)).

(** The snapshot: the elements matched at the ready signal. *)
Definition snapshot (d : Document) : list node :=
  filter (matches d draw_card) (tree d).

(** The timer registered for the card at position [index]. *)
Definition timer_for (t0 : Z) (index : nat) (card : node) : Timer :=
  {| callback := RevealCard card; timeout := (Z.of_nat index * 700)%Z;
     started := t0 |}.

Definition card_of (t : Timer) : node :=
  match callback t with RevealCard card => card end.

(** Events of this script only: the document is left to it. *)
Definition undisturbed (e : Event) : bool :=
  match e with Mutate _ => false | _ => true end.

Definition is_fire (e : Event) : bool :=
  match e with Fire _ => true | _ => false end.

Definition is_query (c : HostCall) : bool :=
  match c with CallQuerySelectorAll _ => true | _ => false end.

Definition is_schedule (c : HostCall) : bool :=
  match c with CallSetTimeout _ _ => true | _ => false end.

(** ** Notions the statements below are written with *)

(** The world after [card.classList.add('revealed')] has run. *)
Definition reveal (card : node) (w : World) : World :=
  set_classAttr card (set_append (classList (doc w) card) revealed)
    (log (CallClassListAdd card revealed) w).

(** The timers the listener registers: one per card of the snapshot,
    in the order of the snapshot. *)
Definition scheduled (d : Document) (t0 : Z) : list Timer :=
  imap (timer_for t0) (snapshot d).

(** The calls the listener makes: one query, then one [setTimeout]
    per card of the snapshot. *)
Definition ready_calls (d : Document) : list HostCall :=
  CallQuerySelectorAll draw_card ::
  imap (λ i card, CallSetTimeout (RevealCard card) (Z.of_nat i * 700)) (snapshot d).

(** The world with the active timer at position [k] taken off the list. *)
Definition without_timer (k : nat) (w : World) : World :=
  {| doc := doc w; timers := delete k (timers w); calls := calls w;
     now := now w |}.

(** The call a firing makes. *)
Definition reveal_call (f : Firing) : HostCall :=
  CallClassListAdd (card_of (fired f)) revealed.

(** The actions registered for one element. *)
Definition actions_for (el : node) (ts : list Timer) : list Timer :=
  filter (λ t, card_of t = el) ts.

(** The world left when the listener runs twice in a row, as it does
    when the page includes the script twice: each copy registers its
    own listener and the host calls both on the same ready signal. *)
Definition ready_twice (d : Document) (t0 : Z) : World :=
  snd (DOMContentLoaded (ready d t0)).

(** The call of [classList.add] a timer makes for its card. *)
Definition add_revealed (card : node) : HostCall :=
  CallClassListAdd card revealed.

(** ** A sample page *)

Module Sample.
(** Cards A, B, C are elements 1, 2, 3; element 4 is not a card;
    C was revealed by the markup already. *)
Definition page : Document :=
  {| tree := [1; 4; 2; 3];
     classAttr := list_to_map
       [(1, ["draw-card"]); (2, ["card"; "draw-card"]);
        (3, ["draw-card"; "revealed"]); (4, ["deck"])];
     quirks := false |}.

(** Nothing on the page is a card. *)
Definition bare : Document :=
  {| tree := [4]; classAttr := list_to_map [(4, ["deck"])];
     quirks := false |}.

(** The cascade as the host plays it when nothing else happens. *)
Definition cascade : list Event :=
  [Fire 0; Elapse 700; Fire 0; Elapse 700; Fire 0].

Definition after_cascade : list Firing * World :=
  default ([], ready page 0) (run cascade (ready page 0)).

(** Another script turns element 4 into a card after the ready
    signal, while the first timer has fired and two are waiting. *)
Definition late_card : Document :=
  {| tree := [1; 4; 2; 3; 5];
     classAttr := list_to_map
       [(1, ["draw-card"; "revealed"]); (2, ["card"; "draw-card"]);
        (3, ["draw-card"; "revealed"]); (4, ["deck"; "draw-card"]);
        (5, ["draw-card"])];
     quirks := false |}.

Definition meddled : list Event :=
  [Fire 0; Mutate late_card; Elapse 5000; Fire 0].

Definition after_meddled : list Firing * World :=
  default ([], ready page 0) (run meddled (ready page 0)).

Definition last_fire : list Firing * World :=
  default ([], ready page 0) (step (Fire 0) after_meddled.2).

(** The script is included twice; the host serves both batches. *)
Definition doubled : list Event :=
  [Fire 0; Fire 2; Elapse 700; Fire 0; Fire 1; Elapse 700; Fire 0; Fire 0].

Definition after_doubled : list Firing * World :=
  default ([], ready_twice page 0) (run doubled (ready_twice page 0)).

(** A page whose tree has one more element that is no card, in front
    of card B. *)
Definition padded : Document :=
  {| tree := [1; 4; 6; 2; 3]; classAttr := classAttr page;
     quirks := false |}.

(** A page of [n] elements, numbered from 0, each of them a card. *)
Definition crowd (n : nat) : Document :=
  {| tree := seq 0 n;
     classAttr := gset_to_gmap ["draw-card"] (list_to_set (seq 0 n));
     quirks := false |}.

(** The same three cards in a quirks-mode document that writes the
    class name of B in capitals. *)
Definition shouting : Document :=
  {| tree := [1; 2; 3];
     classAttr := list_to_map
       [(1, ["draw-card"]); (2, ["DRAW-CARD"]); (3, ["draw-card"])];
     quirks := true |}.
End Sample.

(** * Properties *)

(** ** Token sets *)

Section TokenSets.
Implicit Types (s tokens : list string) (tok x : string).

Lemma elem_of_set_append s tok x : x ∈ set_append s tok ↔ x ∈ s ∨ x = tok.
Proof.
  unfold set_append. case_decide as Hin.
  - split; [by left | intros [? | ->]; done].
  - rewrite elem_of_app, list_elem_of_singleton. done.
Qed.

Lemma NoDup_set_append s tok : NoDup s → NoDup (set_append s tok).
Proof.
  intros Hs. unfold set_append. case_decide as Hin; [done |].
  apply NoDup_app. split_and!; [done | | apply NoDup_singleton].
  intros y Hy ->%list_elem_of_singleton. done.
Qed.

Lemma set_append_present s tok : tok ∈ s → set_append s tok = s.
Proof. intros Hin. unfold set_append. by rewrite decide_True. Qed.

Lemma elem_of_foldl_set_append tokens s x :
  x ∈ foldl set_append s tokens ↔ x ∈ s ∨ x ∈ tokens.
Proof.
  revert s. induction tokens as [| tok tokens IH]; intros s; simpl.
  - rewrite elem_of_nil. tauto.
  - rewrite IH, elem_of_set_append, elem_of_cons. tauto.
Qed.

Lemma NoDup_foldl_set_append tokens s :
  NoDup s → NoDup (foldl set_append s tokens).
Proof.
  revert s. induction tokens as [| tok tokens IH]; intros s Hs; simpl; [done |].
  by apply IH, NoDup_set_append.
Qed.

Lemma foldl_set_append_NoDup tokens s :
  NoDup (s ++ tokens) → foldl set_append s tokens = s ++ tokens.
Proof.
  revert s. induction tokens as [| tok tokens IH]; intros s Hnd; simpl.
  - by rewrite app_nil_r.
  - assert (tok ∉ s) as Hfresh.
    { apply NoDup_app in Hnd as (_ & Hdisj & _). intros Hin.
      apply (Hdisj tok Hin). by left. }
    unfold set_append at 2. rewrite decide_False by done.
    rewrite IH; rewrite <- (assoc_L (++)); done.
Qed.

Lemma elem_of_ordered_set_parser tokens x :
  x ∈ ordered_set_parser tokens ↔ x ∈ tokens.
Proof.
  unfold ordered_set_parser. rewrite elem_of_foldl_set_append, elem_of_nil. tauto.
Qed.

Lemma NoDup_ordered_set_parser tokens : NoDup (ordered_set_parser tokens).
Proof. apply NoDup_foldl_set_append, NoDup_nil_2. Qed.

(** Serialising a token set and parsing it again gives the set back. *)
Lemma ordered_set_parser_set s : NoDup s → ordered_set_parser s = s.
Proof. intros Hs. unfold ordered_set_parser. by rewrite foldl_set_append_NoDup. Qed.
End TokenSets.

Lemma NoDup_classList d el : NoDup (classList d el).
Proof. apply NoDup_ordered_set_parser. Qed.

(** ** Counting occurrences *)

Section Counting.
Context {A : Type} `{EqDecision A}.
Implicit Types (l : list A) (x : A).

Lemma filter_eq_absent l x : x ∉ l → filter (.= x) l = [].
Proof.
  induction l as [| y l IH]; intros Hnot; [done |].
  apply not_elem_of_cons in Hnot as [Hne Hnot].
  rewrite filter_cons_False by done. by apply IH.
Qed.

(** An item of a duplicate-free list occurs in it once. *)
Lemma filter_eq_NoDup l x : NoDup l → x ∈ l → length (filter (.= x) l) = 1.
Proof.
  induction l as [| y l IH]; intros Hnd Hin; [by apply elem_of_nil in Hin |].
  apply NoDup_cons in Hnd as [Hy Hl]. destruct (decide (y = x)) as [-> | Hne].
  - rewrite filter_cons_True by done. simpl. by rewrite filter_eq_absent.
  - rewrite filter_cons_False by done.
    apply elem_of_cons in Hin as [? | Hin]; [done | by apply IH].
Qed.
End Counting.

(** ** The reveal action *)

(** The token ['revealed'] is well formed, so the action never throws. *)
Lemma run_callback_reveal card w :
  run_callback (RevealCard card) w = (Normal (), reveal card w).
Proof. reflexivity. Qed.

Lemma classList_reveal card w el :
  classList (doc (reveal card w)) el =
    if decide (el = card) then set_append (classList (doc w) card) revealed
    else classList (doc w) el.
Proof.
  unfold reveal, classList at 1. simpl. case_decide as Heq.
  - subst el. rewrite lookup_insert_eq. simpl.
    apply ordered_set_parser_set, NoDup_set_append, NoDup_classList.
  - by rewrite lookup_insert_ne.
Qed.

Lemma classAttr_reveal_other card w el :
  el ≠ card → classAttr (doc (reveal card w)) !! el = classAttr (doc w) !! el.
Proof. intros Hne. unfold reveal. simpl. by rewrite lookup_insert_ne. Qed.

(** ** The listener *)

Lemma forEach_from_setTimeout cards index w :
  forEach_from cards index (λ card index,
      setTimeout (RevealCard card) (Z.of_nat index * 700)) w =
    (Normal (),
     {| doc := doc w;
        timers := timers w ++ imap (λ i, timer_for (now w) (index + i)) cards;
        calls := calls w ++
          imap (λ i card, CallSetTimeout (RevealCard card)
                            (Z.of_nat (index + i) * 700)) cards;
        now := now w |}).
Proof.
  revert index w. induction cards as [| card rest IH]; intros index w; simpl.
  - unfold ret. rewrite !app_nil_r. by destruct w.
  - unfold bind. simpl. rewrite IH. simpl.
    rewrite <- !(assoc_L (++)). simpl. rewrite Nat.add_0_r.
    f_equal. f_equal; f_equal; f_equal; apply imap_ext; intros i x _; simpl;
      by rewrite Nat.add_succ_r.
Qed.

(** The snapshot is what the query of the listener returns. *)
Lemma querySelectorAll_snapshot d t0 :
  fst (querySelectorAll draw_card (loaded d t0)) = Normal (snapshot d).
Proof. reflexivity. Qed.

(** The listener always completes, and this is the world it leaves. *)
Lemma DOMContentLoaded_loaded d t0 :
  DOMContentLoaded (loaded d t0) =
    (Normal (),
     {| doc := d; timers := imap (timer_for t0) (snapshot d);
        calls := ready_calls d; now := t0 |}).
Proof.
  unfold DOMContentLoaded, bind, forEach. simpl.
  rewrite forEach_from_setTimeout. reflexivity.
Qed.

Lemma ready_eq d t0 :
  ready d t0 =
    {| doc := d; timers := imap (timer_for t0) (snapshot d);
       calls := ready_calls d; now := t0 |}.
Proof. unfold ready. by rewrite DOMContentLoaded_loaded. Qed.

Lemma timers_ready d t0 : timers (ready d t0) = scheduled d t0.
Proof. by rewrite ready_eq. Qed.

Lemma doc_ready d t0 : doc (ready d t0) = d.
Proof. by rewrite ready_eq. Qed.

Lemma length_scheduled d t0 : length (scheduled d t0) = length (snapshot d).
Proof. apply length_imap. Qed.

Lemma scheduled_lookup d t0 i :
  scheduled d t0 !! i = timer_for t0 i <$> snapshot d !! i.
Proof. apply list_lookup_imap. Qed.

Lemma scheduled_lookup_Some d t0 i t :
  scheduled d t0 !! i = Some t →
  ∃ card, snapshot d !! i = Some card ∧ t = timer_for t0 i card.
Proof.
  rewrite scheduled_lookup. destruct (snapshot d !! i) as [card |]; [| done].
  intros [= <-]. eauto.
Qed.

Lemma card_of_scheduled d t0 : card_of <$> scheduled d t0 = snapshot d.
Proof.
  apply list_eq. intros i. rewrite list_lookup_fmap, scheduled_lookup.
  by destruct (snapshot d !! i).
Qed.

Lemma NoDup_snapshot d : NoDup (tree d) → NoDup (snapshot d).
Proof. apply NoDup_filter. Qed.

Lemma scheduled_card d t0 t : t ∈ scheduled d t0 → card_of t ∈ snapshot d.
Proof.
  intros Ht. rewrite <- (card_of_scheduled d t0). by apply list_elem_of_fmap_2.
Qed.

(** The registered timers differ pairwise: each has its own delay. *)
Lemma scheduled_position d t0 p q t :
  scheduled d t0 !! p = Some t → scheduled d t0 !! q = Some t → p = q.
Proof.
  intros (c & _ & ->)%scheduled_lookup_Some (c' & _ & Heq)%scheduled_lookup_Some.
  unfold timer_for in Heq. injection Heq as _ Hms. lia.
Qed.

(** ** Delays as the host reads them *)

Lemma to_long_range z : (-2147483648 ≤ to_long z < 2147483648)%Z.
Proof.
  unfold to_long. pose proof (Z.mod_pos_bound z 4294967296).
  destruct (Z.leb_spec 2147483648 (z mod 4294967296)); lia.
Qed.

(** A number that fits a [long] is read as it is. *)
Lemma to_long_small z : (0 ≤ z < 2147483648)%Z → to_long z = z.
Proof.
  intros Hz. unfold to_long. rewrite Z.mod_small by lia.
  destruct (Z.leb_spec 2147483648 z); lia.
Qed.

Lemma delay_range t : (0 ≤ delay t < 2147483648)%Z.
Proof. unfold delay. pose proof (to_long_range (timeout t)). lia. Qed.

(** 3067834 is the first position whose delay of [700 * index] does
    not fit: below it the host works with the delay the script asked
    for, at it the number wraps to a negative one and counts as 0. *)
Lemma delay_timer_for t0 i card :
  (Z.of_nat i < 3067834)%Z → delay (timer_for t0 i card) = (700 * Z.of_nat i)%Z.
Proof.
  intros Hi. unfold delay, timer_for. simpl. rewrite to_long_small; lia.
Qed.

Lemma due_timer_for t0 i card :
  (Z.of_nat i < 3067834)%Z →
  due (timer_for t0 i card) = (t0 + 700 * Z.of_nat i)%Z.
Proof. intros Hi. unfold due. by rewrite delay_timer_for. Qed.

Lemma delay_timer_for_wrapped t0 i card :
  Z.of_nat i = 3067834%Z → delay (timer_for t0 i card) = 0%Z.
Proof. intros Hi. unfold delay, timer_for. simpl. rewrite Hi. reflexivity. Qed.

(** ** Single steps *)

Lemma step_Fire k w tr w' :
  step (Fire k) w = Some (tr, w') →
  ∃ t, timers w !! k = Some t ∧ (due t ≤ now w)%Z ∧
       unblocked (timers w) k t = true ∧
       tr = [{| fired_at := now w; fired := t |}] ∧
       w' = reveal (card_of t) (without_timer k w).
Proof.
  simpl. destruct (timers w !! k) as [t |] eqn:Ht; [| done].
  destruct (due t <=? now w)%Z eqn:Hdue; [| done].
  destruct (unblocked (timers w) k t) eqn:Hun; [| done].
  simpl. intros [= <- <-]. exists t. split_and!; try done.
  - by apply Z.leb_le.
  - unfold card_of. by destruct (callback t).
Qed.

Lemma step_Fire_Some k w t :
  timers w !! k = Some t → (due t ≤ now w)%Z →
  unblocked (timers w) k t = true →
  step (Fire k) w =
    Some ([{| fired_at := now w; fired := t |}],
          reveal (card_of t) (without_timer k w)).
Proof.
  intros Ht Hdue Hun. simpl. rewrite Ht, Hun.
  apply Z.leb_le in Hdue. rewrite Hdue. simpl.
  unfold card_of. by destruct (callback t).
Qed.

(** A timer behind an older one whose delay is not larger is blocked. *)
Lemma unblocked_behind ts k t t' :
  ts !! 0 = Some t' → (delay t' ≤ delay t)%Z →
  unblocked ts k t = true → k = 0.
Proof.
  intros Hhead Hle Hun. destruct k as [| k]; [done |].
  destruct ts as [| x ts]; [done |]. simpl in Hhead. injection Hhead as ->.
  unfold unblocked in Hun. simpl in Hun.
  apply andb_true_iff in Hun as [Hx _].
  apply negb_true_iff, Z.leb_gt in Hx. lia.
Qed.

(** A timer is free to run when every older active timer has a larger
    delay. *)
Lemma unblocked_true ts k t :
  (∀ j t', j < k → ts !! j = Some t' → (delay t < delay t')%Z) →
  unblocked ts k t = true.
Proof.
  intros Hall. unfold unblocked. apply forallb_forall. intros t' Hin.
  apply list_elem_of_In, elem_of_take in Hin as (j & Hj & Hlt).
  apply negb_true_iff, Z.leb_gt. by apply (Hall j).
Qed.

Lemma run_cons e es w :
  run (e :: es) w =
    match step e w with
    | None => None
    | Some (tr, w') =>
        match run es w' with
        | None => None
        | Some (tr', w'') => Some (tr ++ tr', w'')
        end
    end.
Proof. reflexivity. Qed.

Lemma run_cons_Some e es w tr w' :
  run (e :: es) w = Some (tr, w') →
  ∃ tr1 w1 tr2, step e w = Some (tr1, w1) ∧ run es w1 = Some (tr2, w') ∧
                tr = tr1 ++ tr2.
Proof.
  rewrite run_cons. destruct (step e w) as [[tr1 w1] |] eqn:Hstep; [| done].
  destruct (run es w1) as [[tr2 w2] |] eqn:Hrun; [| done].
  intros [= <- <-]. by exists tr1, w1, tr2.
Qed.

Lemma run_app es1 es2 w tr1 w1 tr2 w2 :
  run es1 w = Some (tr1, w1) → run es2 w1 = Some (tr2, w2) →
  run (es1 ++ es2) w = Some (tr1 ++ tr2, w2).
Proof.
  revert w tr1. induction es1 as [| e es1 IH]; intros w tr1 H1 H2.
  - simpl in H1. injection H1 as <- <-. done.
  - apply run_cons_Some in H1 as (ta & wa & tb & Hstep & Hrun & ->).
    simpl. rewrite Hstep, (IH _ _ Hrun H2). by rewrite (assoc_L (++)).
Qed.


(** ** What a run does to the world *)

Lemma step_cases e w tr w' :
  step e w = Some (tr, w') →
  (tr = [] ∧ timers w' = timers w ∧ calls w' = calls w ∧
   (now w ≤ now w')%Z ∧ (undisturbed e = true → doc w' = doc w) ∧
   is_fire e = false) ∨
  (∃ k t, e = Fire k ∧ timers w !! k = Some t ∧ (due t ≤ now w)%Z ∧
          tr = [{| fired_at := now w; fired := t |}] ∧
          w' = reveal (card_of t) (without_timer k w)).
Proof.
  destruct e as [ms | d' | k].
  - simpl. intros [= <- <-]. left. simpl. split_and!; try done. lia.
  - simpl. intros [= <- <-]. left. simpl. by split_and!.
  - intros (t & Ht & Hdue & _ & -> & ->)%step_Fire. right. by exists k, t.
Qed.

Lemma run_calls es : ∀ w tr w',
  run es w = Some (tr, w') → calls w' = calls w ++ (reveal_call <$> tr).
Proof.
  induction es as [| e es IH]; intros w tr w' Hrun.
  - simpl in Hrun. injection Hrun as <- <-. by rewrite app_nil_r.
  - apply run_cons_Some in Hrun as (tr1 & w1 & tr2 & Hstep & Hrun & ->).
    apply IH in Hrun as ->. rewrite fmap_app, (assoc_L (++)). f_equal.
    apply step_cases in Hstep
      as [(-> & _ & -> & _) | (k & t & -> & _ & _ & -> & ->)].
    + by rewrite app_nil_r.
    + reflexivity.
Qed.

(** No timer runs before its delay has passed, and the clock never
    goes back. *)
Lemma run_clock es : ∀ w tr w',
  run es w = Some (tr, w') →
  (now w ≤ now w')%Z ∧
  Forall (λ f, (due (fired f) ≤ fired_at f)%Z ∧
               (now w ≤ fired_at f ≤ now w')%Z) tr.
Proof.
  induction es as [| e es IH]; intros w tr w' Hrun.
  - simpl in Hrun. injection Hrun as <- <-. split; [lia | constructor].
  - apply run_cons_Some in Hrun as (tr1 & w1 & tr2 & Hstep & Hrun & ->).
    apply IH in Hrun as [Hnow Hall].
    apply step_cases in Hstep
      as [(-> & _ & _ & Hle & _) | (k & t & -> & _ & Hdue & -> & ->)].
    + split; [lia |]. simpl. eapply Forall_impl; [exact Hall |].
      simpl. intros f. lia.
    + simpl in *. split; [done |]. constructor; [simpl; lia |].
      eapply Forall_impl; [exact Hall |]. simpl. intros f. lia.
Qed.

(** When nobody else touches the document, the class set of an element
    after a run is the one before it, with [revealed] added if one of
    the timers that fired was for this element. *)
Lemma run_classList es : ∀ w tr w',
  forallb undisturbed es = true →
  run es w = Some (tr, w') →
  ∀ el tok,
    tok ∈ classList (doc w') el ↔
    tok ∈ classList (doc w) el ∨
    (tok = revealed ∧ el ∈ (card_of ∘ fired <$> tr)).
Proof.
  induction es as [| e es IH]; intros w tr w' Hes Hrun el tok.
  - simpl in Hrun. injection Hrun as <- <-. simpl.
    rewrite elem_of_nil. tauto.
  - apply run_cons_Some in Hrun as (tr1 & w1 & tr2 & Hstep & Hrun & ->).
    simpl in Hes. apply andb_true_iff in Hes as [He Hes].
    rewrite (IH _ _ _ Hes Hrun), fmap_app, elem_of_app.
    apply step_cases in Hstep
      as [(-> & _ & _ & _ & Hdoc & _) | (k & t & -> & _ & _ & -> & ->)].
    + rewrite (Hdoc He). simpl. rewrite elem_of_nil. tauto.
    + rewrite classList_reveal. simpl.
      rewrite list_elem_of_singleton. case_decide as Heq.
      * subst el. rewrite elem_of_set_append. tauto.
      * tauto.
Qed.

(** The same, for the attribute itself and for the tree: an element for
    which no timer fired keeps its class attribute as it was. *)
Lemma run_frame es : ∀ w tr w',
  forallb undisturbed es = true →
  run es w = Some (tr, w') →
  tree (doc w') = tree (doc w) ∧
  ∀ el, el ∉ (card_of ∘ fired <$> tr) →
        classAttr (doc w') !! el = classAttr (doc w) !! el.
Proof.
  induction es as [| e es IH]; intros w tr w' Hes Hrun.
  - simpl in Hrun. by injection Hrun as <- <-.
  - apply run_cons_Some in Hrun as (tr1 & w1 & tr2 & Hstep & Hrun & ->).
    simpl in Hes. apply andb_true_iff in Hes as [He Hes].
    destruct (IH _ _ _ Hes Hrun) as [Htree Hframe].
    apply step_cases in Hstep
      as [(-> & _ & _ & _ & Hdoc & _) | (k & t & -> & _ & _ & -> & ->)].
    + rewrite <- (Hdoc He). done.
    + split; [done |]. intros el Hel. rewrite fmap_app in Hel.
      apply not_elem_of_app in Hel as [Hel1 Hel2].
      rewrite (Hframe el Hel2).
      rewrite classAttr_reveal_other; [done |].
      intros ->. apply Hel1. simpl. by left.
Qed.

(** Once no timer is active, no timer ever runs again. *)
Lemma run_quiescent es : ∀ w tr w',
  timers w = [] → run es w = Some (tr, w') →
  tr = [] ∧ timers w' = [] ∧ forallb (negb ∘ is_fire) es = true.
Proof.
  induction es as [| e es IH]; intros w tr w' Hts Hrun.
  - simpl in Hrun. by injection Hrun as <- <-.
  - apply run_cons_Some in Hrun as (tr1 & w1 & tr2 & Hstep & Hrun & ->).
    apply step_cases in Hstep
      as [(-> & Hts1 & _ & _ & _ & Hnf) | (k & t & -> & Ht & _)].
    + rewrite Hts in Hts1. destruct (IH _ _ _ Hts1 Hrun) as (-> & ? & ?).
      simpl. rewrite Hnf. done.
    + by rewrite Hts in Ht.
Qed.

Lemma run_quiescent_doc es : ∀ w tr w',
  timers w = [] → run es w = Some (tr, w') →
  calls w' = calls w ∧ (forallb undisturbed es = true → doc w' = doc w).
Proof.
  induction es as [| e es IH]; intros w tr w' Hts Hrun.
  - simpl in Hrun. by injection Hrun as <- <-.
  - apply run_cons_Some in Hrun as (tr1 & w1 & tr2 & Hstep & Hrun & ->).
    apply step_cases in Hstep
      as [(-> & Hts1 & Hcalls & _ & Hdoc & _) | (k & t & -> & Ht & _)].
    + rewrite Hts in Hts1. destruct (IH _ _ _ Hts1 Hrun) as [Hc Hd].
      split; [congruence |]. simpl. intros [He Hes]%andb_true_iff.
      rewrite (Hd Hes). by apply Hdoc.
    + by rewrite Hts in Ht.
Qed.

Lemma run_timers_Permutation es : ∀ w tr w',
  run es w = Some (tr, w') → (fired <$> tr) ++ timers w' ≡ₚ timers w.
Proof.
  induction es as [| e es IH]; intros w tr w' Hrun.
  - simpl in Hrun. by injection Hrun as <- <-.
  - apply run_cons_Some in Hrun as (tr1 & w1 & tr2 & Hstep & Hrun & ->).
    apply IH in Hrun. rewrite fmap_app, <- (assoc_L (++)), Hrun.
    apply step_cases in Hstep
      as [(-> & Hts & _) | (k & t & -> & Ht & _ & -> & ->)].
    + by rewrite Hts.
    + simpl. symmetry. by apply delete_Permutation.
Qed.


(** ** The calls the script makes *)

Lemma filter_schedule_imap (g : nat → Z) (cards : list node) :
  length (filter is_schedule
            (imap (λ i card, CallSetTimeout (RevealCard card) (g i)) cards)) =
    length cards.
Proof.
  revert g. induction cards as [| card rest IH]; intros g; [done |].
  rewrite imap_cons, filter_cons_True by done. simpl. f_equal. apply (IH (g ∘ S)).
Qed.

Lemma filter_query_imap (g : nat → Z) (cards : list node) :
  filter is_query
    (imap (λ i card, CallSetTimeout (RevealCard card) (g i)) cards) = [].
Proof.
  revert g. induction cards as [| card rest IH]; intros g; [done |].
  rewrite imap_cons, filter_cons_False by (simpl; tauto). apply (IH (g ∘ S)).
Qed.

Lemma filter_query_reveal_call tr : filter is_query (reveal_call <$> tr) = [].
Proof.
  induction tr as [| f tr IH]; [done |].
  rewrite fmap_cons, filter_cons_False by (simpl; tauto). done.
Qed.

Lemma ready_calls_schedule d :
  length (filter is_schedule (ready_calls d)) = length (snapshot d).
Proof.
  unfold ready_calls. rewrite filter_cons_False by (simpl; tauto).
  apply filter_schedule_imap.
Qed.

Lemma ready_calls_query d : length (filter is_query (ready_calls d)) = 1.
Proof.
  unfold ready_calls. rewrite filter_cons_True by done.
  simpl. by rewrite filter_query_imap.
Qed.

Lemma calls_ready d t0 : calls (ready d t0) = ready_calls d.
Proof. by rewrite ready_eq. Qed.

Lemma actions_for_cards el ts :
  length (actions_for el ts) = length (filter (.= el) (card_of <$> ts)).
Proof.
  unfold actions_for. induction ts as [| t ts IH]; [done |].
  rewrite fmap_cons, !filter_cons. case_decide; simpl; by rewrite IH.
Qed.

(** The listener changes no document, whatever world it runs in. *)
Lemma doc_DOMContentLoaded w : doc (snd (DOMContentLoaded w)) = doc w.
Proof.
  unfold DOMContentLoaded, bind, forEach. simpl.
  by rewrite forEach_from_setTimeout.
Qed.


(** ** A host that was held up *)

Lemma run_replicate_Fire ts : ∀ w,
  timers w = ts → Forall (λ t, (due t ≤ now w)%Z) ts →
  ∃ tr w', run (replicate (length ts) (Fire 0)) w = Some (tr, w') ∧
           fired <$> tr = ts ∧ timers w' = [] ∧ now w' = now w ∧
           Forall (λ f, fired_at f = now w) tr.
Proof.
  induction ts as [| t ts IH]; intros w Hts Hdue.
  - exists [], w. by split_and!.
  - apply Forall_cons in Hdue as [Ht Hdue].
    destruct (IH (reveal (card_of t) (without_timer 0 w)))
      as (tr & w' & Hrun & Htr & Hnil & Hnow & Hat).
    { unfold reveal. simpl. by rewrite Hts. }
    { done. }
    exists ({| fired_at := now w; fired := t |} :: tr), w'.
    cbn [length replicate]. rewrite run_cons, (step_Fire_Some 0 w t);
      [| by rewrite Hts | done | done].
    rewrite Hrun. split_and!; [done | by rewrite fmap_cons, Htr | done..|].
    by constructor.
Qed.

Lemma undisturbed_catch_up ms n : forallb undisturbed (catch_up ms n) = true.
Proof. unfold catch_up. simpl. by induction n. Qed.

(** ** Runs from the ready state *)

Section Runs.
Variables (d : Document) (t0 : Z).

(** Whatever happens after the ready signal, and whoever changes the
    document in between, the timers that have fired and the timers
    that are active are together the timers the listener registered. *)
Lemma run_ready_Permutation es tr w :
  run es (ready d t0) = Some (tr, w) →
  (fired <$> tr) ++ timers w ≡ₚ scheduled d t0.
Proof. intros Hrun%run_timers_Permutation. by rewrite timers_ready in Hrun. Qed.

Lemma run_ready_cards es tr w :
  run es (ready d t0) = Some (tr, w) →
  (card_of ∘ fired <$> tr) ++ (card_of <$> timers w) ≡ₚ snapshot d.
Proof.
  intros Hperm%run_ready_Permutation.
  by rewrite list_fmap_compose, <- fmap_app, Hperm, card_of_scheduled.
Qed.

Lemma run_ready_fired es tr w f :
  run es (ready d t0) = Some (tr, w) → f ∈ tr → fired f ∈ scheduled d t0.
Proof.
  intros Hperm%run_ready_Permutation Hf. rewrite <- Hperm.
  apply elem_of_app. left. by apply list_elem_of_fmap_2.
Qed.

Lemma run_ready_active es tr w t :
  run es (ready d t0) = Some (tr, w) → t ∈ timers w → t ∈ scheduled d t0.
Proof.
  intros Hperm%run_ready_Permutation Ht. rewrite <- Hperm.
  apply elem_of_app. by right.
Qed.

Lemma run_ready_length es tr w :
  run es (ready d t0) = Some (tr, w) →
  length tr + length (timers w) = length (snapshot d).
Proof.
  intros Hperm%run_ready_Permutation. apply Permutation_length in Hperm.
  by rewrite length_app, length_fmap, length_scheduled in Hperm.
Qed.

(** A run that leaves no timer active has fired them all. *)
Lemma run_ready_complete es tr w :
  run es (ready d t0) = Some (tr, w) → timers w = [] →
  fired <$> tr ≡ₚ scheduled d t0.
Proof.
  intros Hperm%run_ready_Permutation Hnil.
  by rewrite Hnil, app_nil_r in Hperm.
Qed.

(** The cascade can always come to its end: a host that was held up
    for the longest delay a timer can have runs all timers at once. *)
Lemma catch_up_ready :
  ∃ tr w,
    run (catch_up 2147483647 (length (snapshot d))) (ready d t0) = Some (tr, w) ∧
    fired <$> tr = scheduled d t0 ∧ timers w = [].
Proof.
  set (w1 := {| doc := doc (ready d t0); timers := timers (ready d t0);
                calls := calls (ready d t0);
                now := (now (ready d t0) + Z.of_N 2147483647)%Z |}).
  destruct (run_replicate_Fire (scheduled d t0) w1)
    as (tr & w & Hrun & Htr & Hnil & _).
  { by rewrite <- timers_ready. }
  { apply Forall_forall. intros t [k Hk]%list_elem_of_lookup.
    apply scheduled_lookup_Some in Hk as (c & _ & ->).
    pose proof (delay_range (timer_for t0 k c)) as Hrange.
    unfold due. subst w1. rewrite ready_eq. simpl in *. lia. }
  exists tr, w. rewrite length_scheduled in Hrun.
  unfold catch_up. rewrite run_cons. cbn [step]. fold w1.
  rewrite Hrun. done.
Qed.
End Runs.

(** ** Pages whose delays all fit a long *)

Section InOrder.
Variables (d : Document) (t0 : Z).
Hypothesis Hfits : (Z.of_nat (length (snapshot d)) ≤ 3067834)%Z.

Lemma scheduled_delay k t :
  scheduled d t0 !! k = Some t →
  delay t = (700 * Z.of_nat k)%Z ∧ due t = (t0 + 700 * Z.of_nat k)%Z.
Proof.
  intros Hk. pose proof (lookup_lt_Some _ _ _ Hk) as Hlt.
  rewrite length_scheduled in Hlt.
  apply scheduled_lookup_Some in Hk as (c & _ & ->).
  rewrite delay_timer_for, due_timer_for by lia. done.
Qed.

(** While timers of the cascade are left, the next one in the order
    of the snapshot is the only one that may run. *)
Lemma step_Fire_suffix j k w tr w' :
  timers w = drop k (scheduled d t0) →
  step (Fire j) w = Some (tr, w') →
  ∃ t, scheduled d t0 !! k = Some t ∧ j = 0 ∧
       (due t ≤ now w)%Z ∧
       tr = [{| fired_at := now w; fired := t |}] ∧
       w' = reveal (card_of t) (without_timer 0 w) ∧
       timers w' = drop (S k) (scheduled d t0).
Proof.
  intros Hts (t & Ht & Hdue & Hun & -> & ->)%step_Fire.
  rewrite Hts in Ht, Hun. rewrite lookup_drop in Ht.
  assert (is_Some (scheduled d t0 !! k)) as [tk Htk].
  { apply lookup_lt_is_Some. apply lookup_lt_Some in Ht. lia. }
  assert (j = 0) as ->.
  { apply (unblocked_behind (drop k (scheduled d t0)) j t tk); [| | done].
    - by rewrite lookup_drop, Nat.add_0_r.
    - destruct (scheduled_delay _ _ Ht) as [-> _].
      destruct (scheduled_delay _ _ Htk) as [-> _]. lia. }
  rewrite Nat.add_0_r in Ht. exists t. split_and!; try done.
  simpl. rewrite Hts. by rewrite (drop_S _ _ _ Ht).
Qed.

Lemma run_suffix es : ∀ k w tr w',
  k ≤ length (scheduled d t0) →
  timers w = drop k (scheduled d t0) →
  run es w = Some (tr, w') →
  fired <$> tr = take (length tr) (drop k (scheduled d t0)) ∧
  timers w' = drop (k + length tr) (scheduled d t0) ∧
  k + length tr ≤ length (scheduled d t0).
Proof.
  induction es as [| e es IH]; intros k w tr w' Hk Hts Hrun.
  - simpl in Hrun. injection Hrun as <- <-. simpl.
    rewrite Nat.add_0_r. by split_and!.
  - apply run_cons_Some in Hrun as (tr1 & w1 & tr2 & Hstep & Hrun & ->).
    destruct e as [ms | d' | j].
    + simpl in Hstep. injection Hstep as <- <-.
      apply (IH k) in Hrun; done.
    + simpl in Hstep. injection Hstep as <- <-.
      apply (IH k) in Hrun; done.
    + destruct (step_Fire_suffix _ _ _ _ _ Hts Hstep)
        as (t & Ht & -> & Hdue & -> & -> & Hts').
      pose proof (lookup_lt_Some _ _ _ Ht) as Hlt.
      apply (IH (S k)) in Hrun as (Htr & Hts'' & Hlen); [| lia | done].
      rewrite (drop_S _ _ _ Ht). cbn [app length take fmap list_fmap].
      split_and!; [by f_equal | | lia].
      rewrite Hts''. f_equal. lia.
Qed.

(** On such a page the timers that have fired are a prefix of the
    registered ones and the active timers are the rest, whoever
    changes the document in between. *)
Lemma run_ready es tr w :
  run es (ready d t0) = Some (tr, w) →
  fired <$> tr = take (length tr) (scheduled d t0) ∧
  timers w = drop (length tr) (scheduled d t0) ∧
  length tr ≤ length (scheduled d t0).
Proof.
  intros Hrun. apply (run_suffix es 0) in Hrun; [done | lia |].
  by rewrite timers_ready.
Qed.

End InOrder.

(** ** A page with more cards than delays fit *)

Lemma filter_all {A} (P : A → Prop) `{∀ x, Decision (P x)} (l : list A) :
  Forall P l → filter P l = l.
Proof.
  induction 1 as [| x l Hx _ IH]; [done |].
  by rewrite filter_cons_True, IH.
Qed.

Lemma snapshot_crowd n : snapshot (Sample.crowd n) = seq 0 n.
Proof.
  unfold snapshot. cbn [tree Sample.crowd]. apply filter_all, Forall_forall.
  intros el Hel. unfold matches, draw_card, classList.
  cbn [classAttr quirks Sample.crowd].
  assert (gset_to_gmap ["draw-card"] (list_to_set (seq 0 n) : gset node) !! el
          = Some ["draw-card"]) as ->.
  { apply lookup_gset_to_gmap_Some. split; [| done]. by apply elem_of_list_to_set. }
  apply Exists_cons_hd. reflexivity.
Qed.

Section Crowd.
(** [n] cards, the last one at position [k], the one before it at
    position [m]; the delay of the last is the first that wraps. *)
Variables (n k m : nat) (t0 : Z).
Hypothesis Hn : Z.of_nat n = 3067835%Z.
Hypothesis Hk : Z.of_nat k = 3067834%Z.
Hypothesis Hm : Z.of_nat m = 3067833%Z.

Lemma scheduled_crowd i :
  i < n → scheduled (Sample.crowd n) t0 !! i = Some (timer_for t0 i i).
Proof.
  intros Hi. rewrite scheduled_lookup, snapshot_crowd, lookup_seq_lt by done.
  done.
Qed.

Lemma length_scheduled_crowd : length (scheduled (Sample.crowd n) t0) = n.
Proof. by rewrite length_scheduled, snapshot_crowd, length_seq. Qed.

(** Right after the first card, the host may run the timer of the last
    card: its delay has wrapped to 0, and every older timer that is
    still active has a larger one. *)
Lemma crowd_last_fires_second :
  ∃ w, run [Fire 0; Fire m] (ready (Sample.crowd n) t0) =
         Some ([{| fired_at := t0; fired := timer_for t0 0 0 |};
                {| fired_at := t0; fired := timer_for t0 k k |}], w) ∧
       timers w = take m (drop 1 (scheduled (Sample.crowd n) t0)) ∧
       now w = t0.
Proof.
  set (sch := scheduled (Sample.crowd n) t0).
  set (w0 := ready (Sample.crowd n) t0).
  assert (timers w0 = sch) as Hts0 by apply timers_ready.
  assert (now w0 = t0) as Hnow0 by (unfold w0; by rewrite ready_eq).
  clearbody w0.
  set (w1 := reveal 0 (without_timer 0 w0)).
  assert (timers w1 = drop 1 sch) as Hts1.
  { unfold w1, reveal. simpl. rewrite Hts0. by destruct sch. }
  assert (now w1 = t0) as Hnow1 by (unfold w1, reveal; simpl; done).
  assert (step (Fire 0) w0 =
          Some ([{| fired_at := t0; fired := timer_for t0 0 0 |}], w1)) as H1.
  { rewrite (step_Fire_Some 0 w0 (timer_for t0 0 0)).
    - by rewrite Hnow0.
    - rewrite Hts0. apply scheduled_crowd. lia.
    - unfold due. rewrite delay_timer_for by lia. simpl. lia.
    - reflexivity. }
  clearbody w1.
  set (w2 := reveal k (without_timer m w1)).
  assert (step (Fire m) w1 =
          Some ([{| fired_at := t0; fired := timer_for t0 k k |}], w2)) as H2.
  { rewrite (step_Fire_Some m w1 (timer_for t0 k k)).
    - by rewrite Hnow1.
    - rewrite Hts1, lookup_drop. replace (1 + m) with k by lia.
      apply scheduled_crowd. lia.
    - unfold due. rewrite delay_timer_for_wrapped by done. simpl. lia.
    - apply unblocked_true. intros j t' Hj Ht'.
      rewrite Hts1, lookup_drop, scheduled_crowd in Ht' by lia.
      injection Ht' as <-.
      rewrite delay_timer_for_wrapped, delay_timer_for by lia. lia. }
  exists w2. rewrite run_cons, H1, run_cons, H2. simpl. split_and!; [done | |].
  - unfold w2, reveal. simpl. rewrite Hts1, delete_take_drop.
    rewrite (drop_ge _ (S m)), app_nil_r; [done |].
    rewrite length_drop. unfold sch. rewrite length_scheduled_crowd. lia.
  - unfold w2, reveal. simpl. done.
Qed.

(** The host then has only timers left whose delays it reads as they
    were asked for; the longest of them is [700 * m] ms.  When that
    time has passed they can all run, and the cascade is over. *)
Lemma crowd_done_early :
  ∃ tr w, run ([Fire 0; Fire m] ++ catch_up 2147483100 m)
            (ready (Sample.crowd n) t0) = Some (tr, w) ∧
          timers w = [] ∧ length tr = n ∧
          now w = (t0 + 2147483100)%Z ∧
          Forall (λ f, (fired_at f ≤ t0 + 2147483100)%Z) tr.
Proof.
  destruct crowd_last_fires_second as (w2 & Hrun2 & Hts2 & Hnow2).
  set (ts := take m (drop 1 (scheduled (Sample.crowd n) t0))) in *.
  assert (length ts = m) as Hlen.
  { unfold ts. rewrite length_take, length_drop, length_scheduled_crowd. lia. }
  set (w3 := {| doc := doc w2; timers := timers w2; calls := calls w2;
                now := (now w2 + Z.of_N 2147483100)%Z |}).
  destruct (run_replicate_Fire ts w3) as (tr & w & Hrun & Htr & Hnil & Hnow & Hat).
  { done. }
  { apply Forall_forall. intros t [j Hj]%list_elem_of_lookup.
    unfold ts in Hj. apply lookup_take_Some in Hj as [Hj Hjm].
    rewrite lookup_drop, scheduled_crowd in Hj by lia. injection Hj as <-.
    rewrite due_timer_for by lia. subst w3. simpl. rewrite Hnow2. lia. }
  rewrite Hlen in Hrun.
  eexists _, w. split; [| split_and!].
  - eapply run_app; [exact Hrun2 |].
    unfold catch_up. rewrite run_cons. cbn [step]. fold w3. rewrite Hrun.
    reflexivity.
  - done.
  - cbn [app length]. apply (f_equal length) in Htr.
    rewrite length_fmap, Hlen in Htr. lia.
  - rewrite Hnow. subst w3. simpl. rewrite Hnow2. lia.
  - repeat (constructor; [simpl; lia |]).
    eapply Forall_impl; [exact Hat |]. intros f ->. subst w3. simpl.
    rewrite Hnow2. lia.
Qed.
End Crowd.

(** * The claims *)

Module Scenario.
Import Sample.

(** The cards of the sample page, in document order. *)
Example page_snapshot : snapshot page = [1; 2; 3].
Proof. reflexivity. Qed.

(** After the ready signal A waits 0 ms, B 700 ms and C 1400 ms. *)
Example page_timers :
  timers (ready page 0) =
    [ {| callback := RevealCard 1; timeout := 0; started := 0 |};
      {| callback := RevealCard 2; timeout := 700; started := 0 |};
      {| callback := RevealCard 3; timeout := 1400; started := 0 |} ].
Proof. reflexivity. Qed.

Lemma run_cascade :
  run cascade (ready page 0) = Some (after_cascade.1, after_cascade.2).
Proof. vm_compute. reflexivity. Qed.

(** Afterwards every card carries both class names, C still has
    [revealed] once, and the element that is no card is as it was. *)
Example page_revealed :
  classList (doc after_cascade.2) <$> [1; 2; 3; 4] =
    [ ["draw-card"; "revealed"]; ["card"; "draw-card"; "revealed"];
      ["draw-card"; "revealed"]; ["deck"] ].
Proof. vm_compute. reflexivity. Qed.


(** In a quirks-mode document the class written in capitals is
    matched too. *)
Example shouting_snapshot : snapshot shouting = [1; 2; 3].
Proof. reflexivity. Qed.
End Scenario.

(** C1. When the ready signal finds N cards, the listener completes and
    leaves exactly N timers, made by N calls of [setTimeout]; read in
    order, the timers are for the cards of the snapshot in order, so
    each card has exactly one timer and an element outside the snapshot
    has none.  (The tree of a document lists each element once.) *)
Theorem one_action_per_card (d : Document) (t0 : Z) :
  NoDup (tree d) →
  fst (querySelectorAll draw_card (loaded d t0)) = Normal (snapshot d) ∧
  DOMContentLoaded (loaded d t0) = (Normal (), ready d t0) ∧
  length (timers (ready d t0)) = length (snapshot d) ∧
  length (filter is_schedule (calls (ready d t0))) = length (snapshot d) ∧
  card_of <$> timers (ready d t0) = snapshot d ∧
  NoDup (snapshot d) ∧
  ∀ el, length (actions_for el (timers (ready d t0))) =
          if decide (el ∈ snapshot d) then 1 else 0.
Proof.
  intros Htree. pose proof (NoDup_snapshot d Htree) as Hnd.
  rewrite DOMContentLoaded_loaded, calls_ready, timers_ready, <- ready_eq.
  split_and!; try done.
  - apply length_scheduled.
  - apply ready_calls_schedule.
  - apply card_of_scheduled.
  - intros el. rewrite actions_for_cards, card_of_scheduled. case_decide.
    + by apply filter_eq_NoDup.
    + by rewrite filter_eq_absent.
Qed.

Lemma one_action_per_card_witness :
  length (timers (ready Sample.page 0)) = length (snapshot Sample.page) ∧
  length (actions_for 2 (timers (ready Sample.page 0))) = 1 ∧
  length (actions_for 4 (timers (ready Sample.page 0))) = 0.
Proof.
  destruct (one_action_per_card Sample.page 0)
    as (_ & _ & Hlen & _ & _ & _ & Hone).
  - compute_done.
  - split; [exact Hlen |]. split; [exact (Hone 2) | exact (Hone 4)].
Defined.

(** C2. The call of [setTimeout] made for the card at position [i] of
    the snapshot passes the delay [700 * i], and the timer it registers
    is the [i]-th active timer, with that delay and that card. *)
Theorem delay_of_index (d : Document) (t0 : Z) (i : nat) (card : node) :
  snapshot d !! i = Some card →
  calls (ready d t0) !! S i =
    Some (CallSetTimeout (RevealCard card) (700 * Z.of_nat i)) ∧
  timers (ready d t0) !! i =
    Some {| callback := RevealCard card; timeout := 700 * Z.of_nat i;
            started := t0 |}.
Proof.
  intros Hcard. rewrite calls_ready, timers_ready. split.
  - unfold ready_calls. simpl. rewrite list_lookup_imap, Hcard. simpl.
    by rewrite (Z.mul_comm 700).
  - rewrite scheduled_lookup, Hcard. simpl. unfold timer_for.
    by rewrite (Z.mul_comm 700).
Qed.

Lemma delay_of_index_witness :
  timers (ready Sample.page 0) !! 2 =
    Some {| callback := RevealCard 3; timeout := 1400; started := 0 |}.
Proof.
  apply (delay_of_index Sample.page 0 2 3). reflexivity.
Defined.


(** C3. Take any run after the ready signal in which nobody else
    changes the document, and which leaves no timer active.  Then all
    the registered timers have fired, in whatever order, every card of
    the snapshot has [revealed] in its class set, every class name it
    had at the ready signal is still there, and [revealed] is the only
    name that can be new. *)
Theorem all_revealed_nothing_lost (d : Document) (t0 : Z)
    (es : list Event) (tr : list Firing) (w : World) (el : node) :
  forallb undisturbed es = true →
  run es (ready d t0) = Some (tr, w) →
  timers w = [] →
  el ∈ snapshot d →
  fired <$> tr ≡ₚ timers (ready d t0) ∧
  revealed ∈ classList (doc w) el ∧
  (∀ tok, tok ∈ classList d el → tok ∈ classList (doc w) el) ∧
  (∀ tok, tok ∈ classList (doc w) el → tok ∈ classList d el ∨ tok = revealed).
Proof.
  intros Hes Hrun Hnil Hel.
  pose proof (run_ready_complete _ _ _ _ _ Hrun Hnil) as Hall.
  pose proof (run_classList _ _ _ _ Hes Hrun el) as Hcls.
  rewrite doc_ready in Hcls.
  assert (el ∈ (card_of ∘ fired <$> tr)) as Hfired.
  { by rewrite list_fmap_compose, Hall, card_of_scheduled. }
  rewrite timers_ready. split_and!; [done | | |].
  - apply Hcls. by right.
  - intros tok Htok. apply Hcls. by left.
  - intros tok Htok. apply Hcls in Htok. tauto.
Qed.

Lemma all_revealed_nothing_lost_witness :
  revealed ∈ classList (doc Sample.after_cascade.2) 2 ∧
  (∀ tok, tok ∈ classList Sample.page 2 →
          tok ∈ classList (doc Sample.after_cascade.2) 2).
Proof.
  destruct (all_revealed_nothing_lost Sample.page 0 Sample.cascade
              Sample.after_cascade.1 Sample.after_cascade.2 2)
    as (_ & Hrev & Hkept & _).
  - reflexivity.
  - vm_compute; reflexivity.
  - reflexivity.
  - compute_done.
  - split; [exact Hrev | exact Hkept].
Defined.

(** C4. On an element whose class set has [revealed] already, the
    reveal action completes and leaves the class set of every element
    as it was; the class set of the element then holds [revealed]
    exactly once. *)
Theorem reveal_idempotent (w : World) (card : node) :
  revealed ∈ classList (doc w) card →
  ∃ w', run_callback (RevealCard card) w = (Normal (), w') ∧
        (∀ el, classList (doc w') el = classList (doc w) el) ∧
        tree (doc w') = tree (doc w) ∧
        length (filter (.= revealed) (classList (doc w') card)) = 1.
Proof.
  intros Hin. exists (reveal card w).
  assert (∀ el, classList (doc (reveal card w)) el = classList (doc w) el)
    as Hsame.
  { intros el. rewrite classList_reveal. case_decide as Heq; [| done].
    subst el. by apply set_append_present. }
  split_and!; [done | done | done |].
  rewrite Hsame. apply filter_eq_NoDup; [apply NoDup_classList | done].
Qed.

Lemma reveal_idempotent_witness :
  ∃ w', run_callback (RevealCard 3) (ready Sample.page 0) = (Normal (), w') ∧
        (∀ el, classList (doc w') el = classList Sample.page el) ∧
        tree (doc w') = tree Sample.page ∧
        length (filter (.= revealed) (classList (doc w') 3)) = 1.
Proof.
  apply (reveal_idempotent (ready Sample.page 0) 3). compute_done.
Defined.


(** C5, as amended.  On a page of at most 3067834 cards, where every
    delay fits the host's [long]: the delays grow strictly with the
    position in the snapshot, and in any run after the ready signal,
    whatever else happens to the document, the timers that have fired
    are the first ones of the snapshot order, in that order: when the
    timer of position [j] has fired, the timer of each earlier
    position [i] has fired before it.  No timer fires before its delay
    has passed since the ready signal. *)
Theorem fires_in_index_order (d : Document) (t0 : Z) (es : list Event)
    (tr : list Firing) (w : World) (i j : nat) (ti tj : Timer) :
  (Z.of_nat (length (snapshot d)) ≤ 3067834)%Z →
  run es (ready d t0) = Some (tr, w) →
  timers (ready d t0) !! i = Some ti →
  timers (ready d t0) !! j = Some tj →
  i < j →
  timeout ti = (700 * Z.of_nat i)%Z ∧ timeout tj = (700 * Z.of_nat j)%Z ∧
  (timeout ti < timeout tj)%Z ∧
  fired <$> tr = take (length tr) (timers (ready d t0)) ∧
  (∀ q, (fired <$> tr) !! q = Some tj →
        q = j ∧ (fired <$> tr) !! i = Some ti) ∧
  (∀ p q, (fired <$> tr) !! p = Some ti → (fired <$> tr) !! q = Some tj →
          p < q) ∧
  Forall (λ f, (t0 + timeout (fired f) ≤ fired_at f)%Z) tr.
Proof.
  rewrite timers_ready. intros Hfits Hrun Hi Hj Hlt.
  pose proof Hi as (ci & _ & Hti)%scheduled_lookup_Some.
  pose proof Hj as (cj & _ & Htj)%scheduled_lookup_Some.
  destruct (run_ready _ _ Hfits _ _ _ Hrun) as (Htr & _ & _).
  assert (∀ p t, (fired <$> tr) !! p = Some t →
                 p < length tr ∧ scheduled d t0 !! p = Some t) as Hpos.
  { intros p t Hp. rewrite Htr in Hp.
    apply lookup_take_Some in Hp as [Hp Hlen]. done. }
  assert (∀ q, (fired <$> tr) !! q = Some tj →
               q = j ∧ (fired <$> tr) !! i = Some ti) as Hbefore.
  { intros q [Hq Hsq]%Hpos.
    pose proof (scheduled_position _ _ _ _ _ Hsq Hj) as ->.
    split; [done |]. rewrite Htr, lookup_take_lt by lia. done. }
  split_and!; try done.
  - subst ti. simpl. lia.
  - subst tj. simpl. lia.
  - subst ti tj. simpl. lia.
  - intros p q [_ Hp]%Hpos [-> _]%Hbefore.
    by rewrite (scheduled_position _ _ _ _ _ Hp Hi).
  - destruct (run_clock _ _ _ _ Hrun) as [_ Hclock].
    apply Forall_forall. intros f Hf.
    rewrite Forall_forall in Hclock. destruct (Hclock f Hf) as [Hdue _].
    pose proof (run_ready_fired _ _ _ _ _ _ Hrun Hf) as Hsch.
    apply list_elem_of_lookup in Hsch as [k Hk].
    destruct (scheduled_delay _ _ Hfits _ _ Hk) as [_ Hdk].
    apply scheduled_lookup_Some in Hk as (c & _ & Hf').
    rewrite Hdk in Hdue. rewrite Hf'. simpl. lia.
Qed.

Lemma fires_in_index_order_witness :
  fired <$> Sample.after_meddled.1 =
    take (length Sample.after_meddled.1) (timers (ready Sample.page 0)).
Proof.
  destruct (fires_in_index_order Sample.page 0 Sample.meddled
              Sample.after_meddled.1 Sample.after_meddled.2 0 1
              {| callback := RevealCard 1; timeout := 0; started := 0 |}
              {| callback := RevealCard 2; timeout := 700; started := 0 |})
    as (_ & _ & _ & Hprefix & _).
  - vm_compute. discriminate.
  - vm_compute; reflexivity.
  - reflexivity.
  - reflexivity.
  - lia.
  - exact Hprefix.
Defined.

(** C5 as the claim states it fails on a page of 3067835 cards.  The
    card at position 3067834 is asked to wait 2147483800 ms; the host
    reads that as a negative [long] and lets it wait 0 ms.  So its
    timer may fire, and in a host that serves timers in delay order
    does fire, right after the timer of position 0, while the timer of
    position 1 is still waiting for its 700 ms. *)
Lemma late_position_overtakes :
  ∃ w,
    run [Fire 0; Fire (Z.to_nat 3067833)]
      (ready (Sample.crowd (Z.to_nat 3067835)) 0) =
      Some ([{| fired_at := 0; fired := timer_for 0 0 0 |};
             {| fired_at := 0;
                fired := timer_for 0 (Z.to_nat 3067834) (Z.to_nat 3067834) |}],
            w) ∧
    timers (ready (Sample.crowd (Z.to_nat 3067835)) 0) !! 1 =
      Some (timer_for 0 1 1) ∧
    timers (ready (Sample.crowd (Z.to_nat 3067835)) 0) !! Z.to_nat 3067834 =
      Some (timer_for 0 (Z.to_nat 3067834) (Z.to_nat 3067834)) ∧
    timers w !! 0 = Some (timer_for 0 1 1) ∧
    now w = 0%Z.
Proof.
  destruct (crowd_last_fires_second (Z.to_nat 3067835) (Z.to_nat 3067834)
              (Z.to_nat 3067833) 0) as (w & Hrun & Hts & Hnow); [lia.. |].
  pose proof (scheduled_crowd (Z.to_nat 3067835) 0 1) as Hsecond.
  pose proof (scheduled_crowd (Z.to_nat 3067835) 0 (Z.to_nat 3067834)) as Hlast.
  exists w. split; [exact Hrun |].
  split; [rewrite timers_ready; apply Hsecond; lia |].
  split; [rewrite timers_ready; apply Hlast; lia |].
  split; [| exact Hnow].
  rewrite Hts. rewrite lookup_take_lt by lia.
  rewrite lookup_drop. apply Hsecond. lia.
Qed.

(** C6. When no element carries [draw-card] at the ready signal, the
    listener completes normally after its one query: no timer is
    registered, the document is as it was, and in whatever follows no
    timer fires and the script makes no further call; the document
    changes only if someone else changes it. *)
Theorem no_cards_no_actions (d : Document) (t0 : Z) (es : list Event)
    (tr : list Firing) (w : World) :
  snapshot d = [] →
  run es (ready d t0) = Some (tr, w) →
  DOMContentLoaded (loaded d t0) =
    (Normal (), {| doc := d; timers := [];
                   calls := [CallQuerySelectorAll draw_card]; now := t0 |}) ∧
  tr = [] ∧ timers w = [] ∧
  calls w = [CallQuerySelectorAll draw_card] ∧
  forallb (negb ∘ is_fire) es = true ∧
  (forallb undisturbed es = true → doc w = d).
Proof.
  intros Hnone Hrun.
  assert (ready d t0 = {| doc := d; timers := [];
            calls := [CallQuerySelectorAll draw_card]; now := t0 |}) as Hready.
  { rewrite ready_eq. unfold ready_calls. by rewrite Hnone. }
  assert (timers (ready d t0) = []) as Hnil by (by rewrite Hready).
  destruct (run_quiescent _ _ _ _ Hnil Hrun) as (-> & Hts & Hnf).
  destruct (run_quiescent_doc _ _ _ _ Hnil Hrun) as [Hcalls Hdoc].
  rewrite Hready in Hcalls, Hdoc.
  rewrite DOMContentLoaded_loaded, <- ready_eq, Hready. by split_and!.
Qed.

Lemma no_cards_no_actions_witness :
  DOMContentLoaded (loaded Sample.bare 0) =
    (Normal (), {| doc := Sample.bare; timers := [];
                   calls := [CallQuerySelectorAll draw_card]; now := 0 |}).
Proof.
  destruct (no_cards_no_actions Sample.bare 0 [Elapse 700]
              [] {| doc := Sample.bare; timers := [];
                    calls := [CallQuerySelectorAll draw_card]; now := 700 |})
    as (Hdone & _).
  - reflexivity.
  - reflexivity.
  - exact Hdone.
Defined.


(** C7. An element that is not in the snapshot is not counted and not
    touched: the number of timers is the number of elements of the
    tree that match the selector, none of them is for this element,
    the listener leaves the document as it is, and no firing of a
    timer changes the element's class attribute or the tree.  So when
    nobody else changes the document, the element's class attribute
    stays what it was at the ready signal. *)
Theorem non_cards_untouched (d : Document) (t0 : Z) (es : list Event)
    (tr : list Firing) (w : World) (el : node) :
  el ∉ snapshot d →
  run es (ready d t0) = Some (tr, w) →
  length (timers (ready d t0)) =
    length (filter (matches d draw_card) (tree d)) ∧
  actions_for el (timers (ready d t0)) = [] ∧
  doc (ready d t0) = d ∧
  (el ∉ (card_of ∘ fired <$> tr)) ∧
  (forallb undisturbed es = true →
     classAttr (doc w) !! el = classAttr d !! el ∧ tree (doc w) = tree d) ∧
  (∀ k tr' w', step (Fire k) w = Some (tr', w') →
     classAttr (doc w') !! el = classAttr (doc w) !! el ∧
     tree (doc w') = tree (doc w)).
Proof.
  intros Hel Hrun.
  pose proof (run_ready_cards _ _ _ _ _ Hrun) as Hcards.
  assert (el ∉ (card_of ∘ fired <$> tr)) as Hnot.
  { intros Hin. apply Hel. rewrite <- Hcards. apply elem_of_app. by left. }
  rewrite timers_ready, doc_ready. split_and!; try done.
  - apply length_scheduled.
  - apply length_zero_iff_nil. rewrite actions_for_cards, card_of_scheduled.
    by rewrite filter_eq_absent.
  - intros Hes. destruct (run_frame _ _ _ _ Hes Hrun) as [Htree Hframe].
    rewrite doc_ready in Htree, Hframe. split; [by apply Hframe | done].
  - intros k tr' w' (t & Ht & _ & _ & _ & ->)%step_Fire.
    split; [| done]. rewrite classAttr_reveal_other; [done |]. intros ->.
    apply Hel, (scheduled_card d t0), (run_ready_active _ _ _ _ _ _ Hrun).
    by eapply list_elem_of_lookup_2.
Qed.

Lemma non_cards_untouched_witness :
  classAttr (doc Sample.after_cascade.2) !! 4 = classAttr Sample.page !! 4 ∧
  tree (doc Sample.after_cascade.2) = tree Sample.page.
Proof.
  destruct (non_cards_untouched Sample.page 0 Sample.cascade
              Sample.after_cascade.1 Sample.after_cascade.2 4)
    as (_ & _ & _ & _ & Hframe & _).
  - compute_done.
  - vm_compute; reflexivity.
  - apply Hframe. reflexivity.
Defined.

(** C8. What this script does never takes [revealed] away: an element
    that has it keeps it through the listener, through the action of
    any timer, and through any run in which nobody else changes the
    document. *)
Theorem revealed_is_monotone (w : World) (es : list Event)
    (tr : list Firing) (w' : World) (el : node) (cb : Callback) :
  forallb undisturbed es = true →
  run es w = Some (tr, w') →
  revealed ∈ classList (doc w) el →
  revealed ∈ classList (doc (snd (DOMContentLoaded w))) el ∧
  revealed ∈ classList (doc (snd (run_callback cb w))) el ∧
  revealed ∈ classList (doc w') el.
Proof.
  intros Hes Hrun Hin. split_and!.
  - by rewrite doc_DOMContentLoaded.
  - destruct cb as [card]. rewrite run_callback_reveal. cbn [snd].
    rewrite classList_reveal. case_decide as Heq; [| done].
    apply elem_of_set_append. by right.
  - apply (run_classList _ _ _ _ Hes Hrun). by left.
Qed.

Lemma revealed_is_monotone_witness :
  revealed ∈ classList (doc Sample.after_cascade.2) 3.
Proof.
  destruct (revealed_is_monotone (ready Sample.page 0) Sample.cascade
              Sample.after_cascade.1 Sample.after_cascade.2 3
              (RevealCard 3))
    as (_ & _ & Hkept).
  - reflexivity.
  - vm_compute; reflexivity.
  - compute_done.
  - exact Hkept.
Defined.


(** C9. The listener queries the document once and never again: in
    every world reached after the ready signal, the calls made so far
    hold exactly one query.  The timers that have fired and the timers
    still active are together those of the snapshot taken then, so an
    element outside that snapshot has no timer, even when it carries
    [draw-card] by now or entered the document later.  Every firing
    is that of a timer registered at the ready signal for a card of
    the snapshot; it writes the class attribute of that very element
    and of no other. *)
Theorem snapshot_is_taken_once (d : Document) (t0 : Z) (es : list Event)
    (tr : list Firing) (w : World) (el : node) :
  run es (ready d t0) = Some (tr, w) →
  el ∉ snapshot d →
  length (filter is_query (calls w)) = 1 ∧
  (card_of ∘ fired <$> tr) ++ (card_of <$> timers w) ≡ₚ snapshot d ∧
  (el ∉ (card_of ∘ fired <$> tr)) ∧
  (el ∉ (card_of <$> timers w)) ∧
  ∀ k tr' w', step (Fire k) w = Some (tr', w') →
    ∃ i card,
      snapshot d !! i = Some card ∧
      timers w !! k = Some (timer_for t0 i card) ∧
      tr' = [{| fired_at := now w; fired := timer_for t0 i card |}] ∧
      doc w' =
        {| tree := tree (doc w);
           classAttr := <[card := set_append (classList (doc w) card) revealed]>
                          (classAttr (doc w));
           quirks := quirks (doc w) |} ∧
      calls w' = calls w ++ [CallClassListAdd card revealed] ∧
      timers w' = delete k (timers w) ∧
      classAttr (doc w') !! el = classAttr (doc w) !! el.
Proof.
  intros Hrun Hel.
  pose proof (run_ready_cards _ _ _ _ _ Hrun) as Hcards.
  split_and!; try done.
  - rewrite (run_calls _ _ _ _ Hrun), calls_ready, filter_app, length_app.
    by rewrite ready_calls_query, filter_query_reveal_call.
  - intros Hin. apply Hel. rewrite <- Hcards. apply elem_of_app. by left.
  - intros Hin. apply Hel. rewrite <- Hcards. apply elem_of_app. by right.
  - intros k tr' w' (t & Ht & _ & _ & -> & ->)%step_Fire.
    pose proof (run_ready_active _ _ _ _ _ _ Hrun
                  (list_elem_of_lookup_2 _ _ _ Ht)) as [i Hi]%list_elem_of_lookup.
    apply scheduled_lookup_Some in Hi as (card & Hcard & ->).
    exists i, card. split_and!; try done.
    change (card_of (timer_for t0 i card)) with card.
    rewrite classAttr_reveal_other; [done |]. intros ->.
    by apply list_elem_of_lookup_2 in Hcard.
Qed.

Lemma snapshot_is_taken_once_witness :
  Exists (same_class false "draw-card") (classList (doc Sample.after_meddled.2) 4) ∧
  length (filter is_query (calls Sample.after_meddled.2)) = 1 ∧
  (4 ∉ (card_of <$> timers Sample.after_meddled.2)) ∧
  classAttr (doc Sample.last_fire.2) !! 4 =
    classAttr (doc Sample.after_meddled.2) !! 4.
Proof.
  destruct (snapshot_is_taken_once Sample.page 0 Sample.meddled
              Sample.after_meddled.1 Sample.after_meddled.2 4)
    as (Hquery & _ & _ & Hnone & Hfire).
  - vm_compute; reflexivity.
  - compute_done.
  - destruct (Hfire 0 Sample.last_fire.1 Sample.last_fire.2)
      as (i & card & _ & _ & _ & _ & _ & _ & Hframe); [vm_compute; reflexivity |].
    split; [compute_done |]. split; [exact Hquery |].
    split; [exact Hnone | exact Hframe].
Defined.

(** C10, as amended.  The listener returns, having called [setTimeout]
    once per card, and the cascade can always come to its end: a host
    that was held up long enough fires all N timers and is left with
    none.  No run fires more than N timers.  When a run has fired them
    all, no timer fires from there on, the script makes no call, and
    the document changes only if someone else changes it.  On a page
    of at most 3067834 cards, where every delay fits the host's
    [long], the last timer to fire is the one with the delay
    [700 * (N - 1)], not before that delay has passed. *)
Theorem cascade_terminates (d : Document) (t0 : Z) :
  DOMContentLoaded (loaded d t0) = (Normal (), ready d t0) ∧
  length (filter is_schedule (calls (ready d t0))) = length (snapshot d) ∧
  length (timers (ready d t0)) = length (snapshot d) ∧
  (∃ tr w,
     forallb undisturbed (catch_up 2147483647 (length (snapshot d))) = true ∧
     run (catch_up 2147483647 (length (snapshot d))) (ready d t0) =
       Some (tr, w) ∧
     fired <$> tr = timers (ready d t0) ∧
     timers w = []) ∧
  ∀ es tr w, run es (ready d t0) = Some (tr, w) →
    length tr ≤ length (snapshot d) ∧
    (timers w = [] →
       length tr = length (snapshot d) ∧
       ((Z.of_nat (length (snapshot d)) ≤ 3067834)%Z →
        ∀ f, last tr = Some f →
             timeout (fired f) = (700 * (Z.of_nat (length (snapshot d)) - 1))%Z ∧
             (t0 + 700 * (Z.of_nat (length (snapshot d)) - 1) ≤ fired_at f)%Z ∧
             (fired_at f ≤ now w)%Z) ∧
       ∀ es' tr' w', run es' w = Some (tr', w') →
         tr' = [] ∧ timers w' = [] ∧ calls w' = calls w ∧
         forallb (negb ∘ is_fire) es' = true ∧
         (forallb undisturbed es' = true → doc w' = doc w)).
Proof.
  rewrite DOMContentLoaded_loaded, calls_ready, timers_ready, <- ready_eq.
  split_and!; [done | apply ready_calls_schedule | apply length_scheduled | |].
  - destruct (catch_up_ready d t0) as (tr & w & Hrun & Htr & Hnil).
    exists tr, w. split_and!; try done. apply undisturbed_catch_up.
  - intros es tr w Hrun.
    pose proof (run_ready_length _ _ _ _ _ Hrun) as Hlen.
    split; [lia |]. intros Hnil. rewrite Hnil in Hlen. simpl in Hlen.
    split_and!; [lia | |].
    + intros Hfits f Hlast.
      destruct (run_ready _ _ Hfits _ _ _ Hrun) as (Hpre & _ & _).
      assert (scheduled d t0 !! pred (length (snapshot d)) = Some (fired f))
        as Hf.
      { assert ((fired <$> tr) !! pred (length tr) = Some (fired f)) as Hp.
        { by rewrite list_lookup_fmap, <- last_lookup, Hlast. }
        rewrite Hpre in Hp. apply lookup_take_Some in Hp as [Hp _].
        by replace (length (snapshot d)) with (length tr) by lia. }
      destruct (scheduled_delay _ _ Hfits _ _ Hf) as [_ Hdf].
      pose proof Hf as (c & Hc & Hfc)%scheduled_lookup_Some.
      apply lookup_lt_Some in Hc.
      destruct (run_clock _ _ _ _ Hrun) as [_ Hclock].
      rewrite Forall_forall in Hclock.
      destruct (Hclock f) as (Hdue & _ & Hnow).
      { apply last_Some in Hlast as [tr0 ->].
        rewrite elem_of_app, list_elem_of_singleton. by right. }
      rewrite Hdf in Hdue. rewrite Hfc. simpl. lia.
    + intros es' tr' w' Hrun'.
      destruct (run_quiescent _ _ _ _ Hnil Hrun') as (-> & ? & ?).
      destruct (run_quiescent_doc _ _ _ _ Hnil Hrun') as [? ?].
      by split_and!.
Qed.

(** C10 as the claim states it fails on a page of 3067835 cards, where
    [700 * (N - 1)] is 2147483800: the timer of the last card is read
    as one of 0 ms and fires at once, the longest delay the host works
    with is 2147483100 ms, and when that has passed every timer can
    fire.  The cascade is then over 700 ms before the delay of the
    last card has passed. *)
Lemma cascade_over_early :
  ∃ tr w,
    run ([Fire 0; Fire (Z.to_nat 3067833)] ++
         catch_up 2147483100 (Z.to_nat 3067833))
      (ready (Sample.crowd (Z.to_nat 3067835)) 0) = Some (tr, w) ∧
    timers w = [] ∧
    length tr = length (snapshot (Sample.crowd (Z.to_nat 3067835))) ∧
    Z.of_nat (length (snapshot (Sample.crowd (Z.to_nat 3067835)))) = 3067835%Z ∧
    now w = 2147483100%Z ∧
    (now w <
       0 + 700 * (Z.of_nat (length (snapshot (Sample.crowd (Z.to_nat 3067835)))) - 1))%Z ∧
    Forall (λ f, (fired_at f ≤ 2147483100)%Z) tr.
Proof.
  destruct (crowd_done_early (Z.to_nat 3067835) (Z.to_nat 3067834)
              (Z.to_nat 3067833) 0) as (tr & w & Hrun & Hnil & Hlen & Hnow & Hat);
    [lia.. |].
  exists tr, w. rewrite snapshot_crowd, length_seq.
  split_and!; [done | done | done | lia | done | lia | done].
Qed.

(** * Further properties of the script *)

(** X1. In any world, with timers of earlier runs still active or not,
    the listener completes normally, leaves the document and the clock
    alone, keeps the active timers as they are and in their order, and
    appends one timer per card of the document as it is now, with the
    delays 0, 700, 1400, ... counted from the current clock. *)
Theorem listener_appends_timers (w : World) :
  DOMContentLoaded w = (Normal (), snd (DOMContentLoaded w)) ∧
  doc (snd (DOMContentLoaded w)) = doc w ∧
  now (snd (DOMContentLoaded w)) = now w ∧
  timers (snd (DOMContentLoaded w)) =
    timers w ++ imap (timer_for (now w)) (snapshot (doc w)) ∧
  calls (snd (DOMContentLoaded w)) = calls w ++ ready_calls (doc w).
Proof.
  unfold DOMContentLoaded, bind, forEach. cbn [querySelectorAll].
  rewrite forEach_from_setTimeout. cbn [snd doc now timers calls log].
  split_and!; try done.
  by rewrite <- (assoc_L (++)).
Qed.

(** X3. The reveal action writes a normalised class attribute: the
    tokens the element had, each once and in the order of their first
    occurrence, followed by [revealed] if it was not among them.  On
    an element that has lost its class attribute it makes a new one
    with [revealed] alone. *)
Theorem reveal_writes_token_set (w : World) (card : node) :
  classAttr (doc (snd (run_callback (RevealCard card) w))) !! card =
    Some (classList (doc w) card ++
          if decide (revealed ∈ classList (doc w) card) then [] else [revealed]) ∧
  NoDup (classList (doc w) card ++
         if decide (revealed ∈ classList (doc w) card) then [] else [revealed]) ∧
  (classAttr (doc w) !! card = None →
   classAttr (doc (snd (run_callback (RevealCard card) w))) !! card =
     Some [revealed]).
Proof.
  rewrite run_callback_reveal. cbn [snd]. unfold reveal.
  cbn [set_classAttr doc classAttr log]. rewrite lookup_insert_eq.
  pose proof (NoDup_set_append (classList (doc w) card) revealed
                (NoDup_classList _ _)) as Hnd.
  unfold set_append in *. split_and!.
  - case_decide; [by rewrite app_nil_r | done].
  - case_decide; [by rewrite app_nil_r | done].
  - intros Hnone. unfold classList. rewrite Hnone. reflexivity.
Qed.

(** X4. Timers are one-shot and callbacks register none: in a run from
    any world, the timers that fired together with the timers still
    active are the timers that were active at the start, each as often
    as it was there.  So the two numbers add up to the number at the
    start, and every timer there is was there from the start. *)
Theorem timers_conserved (es : list Event) (w : World)
    (tr : list Firing) (w' : World) :
  run es w = Some (tr, w') →
  (fired <$> tr) ++ timers w' ≡ₚ timers w ∧
  length tr + length (timers w') = length (timers w) ∧
  (∀ t, t ∈ (fired <$> tr) ∨ t ∈ timers w' → t ∈ timers w).
Proof.
  intros Hperm%run_timers_Permutation. split_and!; [done | |].
  - rewrite <- Hperm, length_app, length_fmap. done.
  - intros t Ht. rewrite <- Hperm. by apply elem_of_app.
Qed.

Lemma timers_conserved_witness :
  (fired <$> Sample.after_doubled.1) ++ timers Sample.after_doubled.2
    ≡ₚ timers (ready_twice Sample.page 0).
Proof.
  destruct (timers_conserved Sample.doubled (ready_twice Sample.page 0)
              Sample.after_doubled.1 Sample.after_doubled.2) as (Hperm & _).
  - vm_compute; reflexivity.
  - exact Hperm.
Defined.


(** X5. After the ready signal the script calls [classList.add] and
    nothing else: once for each timer that has fired, for the card of
    that timer.  Fired and active timers together are always N, and no
    card is revealed twice.  On a page of at most 3067834 cards the
    calls are for the cards of the snapshot in their order. *)
Theorem reveal_calls_follow_snapshot (d : Document) (t0 : Z)
    (es : list Event) (tr : list Firing) (w : World) :
  run es (ready d t0) = Some (tr, w) →
  calls w = calls (ready d t0) ++ (add_revealed <$> (card_of ∘ fired <$> tr)) ∧
  length tr + length (timers w) = length (snapshot d) ∧
  (NoDup (tree d) → NoDup (card_of ∘ fired <$> tr)) ∧
  ((Z.of_nat (length (snapshot d)) ≤ 3067834)%Z →
   calls w =
     calls (ready d t0) ++ (add_revealed <$> take (length tr) (snapshot d))).
Proof.
  intros Hrun.
  pose proof (run_ready_cards _ _ _ _ _ Hrun) as Hcards.
  assert (calls w =
          calls (ready d t0) ++ (add_revealed <$> (card_of ∘ fired <$> tr)))
    as Hcalls.
  { rewrite (run_calls _ _ _ _ Hrun). f_equal.
    by rewrite <- list_fmap_compose. }
  split_and!; [done | by apply (run_ready_length d t0 es) | |].
  - intros Htree. apply NoDup_snapshot in Htree.
    rewrite <- Hcards in Htree. by apply NoDup_app in Htree as [? _].
  - intros Hfits. destruct (run_ready _ _ Hfits _ _ _ Hrun) as (Htr & _ & _).
    rewrite Hcalls. do 2 f_equal.
    by rewrite list_fmap_compose, Htr, fmap_take, card_of_scheduled.
Qed.

Lemma reveal_calls_follow_snapshot_witness :
  calls Sample.after_meddled.2 =
    calls (ready Sample.page 0) ++
    (add_revealed <$> take (length Sample.after_meddled.1) (snapshot Sample.page)).
Proof.
  destruct (reveal_calls_follow_snapshot Sample.page 0 Sample.meddled
              Sample.after_meddled.1 Sample.after_meddled.2)
    as (_ & _ & _ & Hcalls).
  - vm_compute; reflexivity.
  - apply Hcalls. vm_compute. discriminate.
Defined.

(** The timers that have fired needed their delays: [700 * (n - 1)] ms
    at least have passed when [n] of them have fired. *)
Lemma run_ready_elapsed d t0 es tr w :
  (Z.of_nat (length (snapshot d)) ≤ 3067834)%Z →
  run es (ready d t0) = Some (tr, w) →
  (700 * Z.of_nat (length tr) ≤ now w - t0 + 700)%Z.
Proof.
  intros Hfits Hrun. destruct (run_clock _ _ _ _ Hrun) as [Hnow Hclock].
  destruct (run_ready _ _ Hfits _ _ _ Hrun) as (Htr & _ & Hlen).
  rewrite ready_eq in Hnow. simpl in Hnow.
  destruct (last tr) as [f |] eqn:Hlast.
  - assert (scheduled d t0 !! pred (length tr) = Some (fired f)) as Hf.
    { assert ((fired <$> tr) !! pred (length tr) = Some (fired f)) as Hp.
      { by rewrite list_lookup_fmap, <- last_lookup, Hlast. }
      rewrite Htr in Hp. by apply lookup_take_Some in Hp as [Hp _]. }
    destruct (scheduled_delay _ _ Hfits _ _ Hf) as [_ Hdf].
    rewrite Forall_forall in Hclock.
    destruct (Hclock f) as (Hdue & _ & Hle).
    { apply last_Some in Hlast as [tr0 ->].
      rewrite elem_of_app, list_elem_of_singleton. by right. }
    rewrite Hdf in Hdue.
    apply last_Some in Hlast as [tr0 ->]. rewrite length_app in *.
    simpl in *. lia.
  - apply last_None in Hlast as ->. simpl. lia.
Qed.

(** X6. On a page of at most 3067834 cards the cascade cannot be
    hurried: in any run after the ready signal, whatever else happens,
    at most one card is revealed at once and one more for every 700 ms
    that have passed. *)
Theorem one_card_per_700ms (d : Document) (t0 : Z) (es : list Event)
    (tr : list Firing) (w : World) :
  (Z.of_nat (length (snapshot d)) ≤ 3067834)%Z →
  run es (ready d t0) = Some (tr, w) →
  (t0 ≤ now w)%Z ∧
  (700 * Z.of_nat (length tr) ≤ now w - t0 + 700)%Z ∧
  (Z.of_nat (length tr) ≤ (now w - t0) `div` 700 + 1)%Z.
Proof.
  intros Hfits Hrun.
  pose proof (run_ready_elapsed _ _ _ _ _ Hfits Hrun) as Hrate.
  destruct (run_clock _ _ _ _ Hrun) as [Hnow _].
  rewrite ready_eq in Hnow. simpl in Hnow. split_and!; [done | done |].
  apply Z.lt_succ_r, (Z.mul_lt_mono_pos_l 700); [lia |].
  pose proof (Z.mod_pos_bound (now w - t0) 700).
  pose proof (Z.div_mod (now w - t0) 700). lia.
Qed.

Lemma one_card_per_700ms_witness :
  (700 * Z.of_nat (length Sample.after_meddled.1)
     ≤ now Sample.after_meddled.2 - 0 + 700)%Z.
Proof.
  destruct (one_card_per_700ms Sample.page 0 Sample.meddled
              Sample.after_meddled.1 Sample.after_meddled.2) as (_ & Hrate & _).
  - vm_compute. discriminate.
  - vm_compute; reflexivity.
  - exact Hrate.
Defined.

(** X7. While nobody else touches the document, a card that was not
    revealed at the ready signal is not revealed before its own delay
    of [700 * i] ms has passed.  This is so for every position below
    3067834, whose delay the host reads as the script asked for it,
    however many cards the page has. *)
Theorem not_revealed_early (d : Document) (t0 : Z) (es : list Event)
    (tr : list Firing) (w : World) (i : nat) (card : node) :
  NoDup (tree d) →
  (Z.of_nat i < 3067834)%Z →
  forallb undisturbed es = true →
  run es (ready d t0) = Some (tr, w) →
  snapshot d !! i = Some card →
  revealed ∉ classList d card →
  (now w < t0 + 700 * Z.of_nat i)%Z →
  (revealed ∉ classList (doc w) card) ∧
  classList (doc w) card = classList d card.
Proof.
  intros Htree Hi Hes Hrun Hcard Hnot Hnow.
  destruct (run_clock _ _ _ _ Hrun) as [_ Hclock].
  rewrite Forall_forall in Hclock.
  assert (card ∉ (card_of ∘ fired <$> tr)) as Hwaiting.
  { intros (f & Hcf & Hf)%list_elem_of_fmap. simpl in Hcf.
    destruct (Hclock f Hf) as (Hdue & _ & Hle).
    pose proof (run_ready_fired _ _ _ _ _ _ Hrun Hf) as [j Hj]%list_elem_of_lookup.
    apply scheduled_lookup_Some in Hj as (c & Hc & Hfj).
    rewrite Hfj in Hcf. change (card_of (timer_for t0 j c)) with c in Hcf.
    subst c.
    pose proof (NoDup_lookup _ _ _ _ (NoDup_snapshot d Htree) Hc Hcard) as ->.
    rewrite Hfj, due_timer_for in Hdue by done. lia. }
  split.
  - intros Hin. apply (run_classList _ _ _ _ Hes Hrun) in Hin.
    rewrite doc_ready in Hin. tauto.
  - destruct (run_frame _ _ _ _ Hes Hrun) as [_ Hframe].
    unfold classList. rewrite (Hframe card Hwaiting). by rewrite doc_ready.
Qed.

Lemma not_revealed_early_witness :
  classList (doc (default (ready Sample.page 0)
                    (snd <$> run [Fire 0; Elapse 699] (ready Sample.page 0)))) 2 =
    classList Sample.page 2.
Proof.
  destruct (not_revealed_early Sample.page 0 [Fire 0; Elapse 699]
              (default [] (fst <$> run [Fire 0; Elapse 699] (ready Sample.page 0)))
              (default (ready Sample.page 0)
                 (snd <$> run [Fire 0; Elapse 699] (ready Sample.page 0)))
              1 2) as [_ Hsame].
  - compute_done.
  - lia.
  - reflexivity.
  - vm_compute; reflexivity.
  - reflexivity.
  - compute_done.
  - vm_compute; reflexivity.
  - exact Hsame.
Defined.

(** X9. The delay of a card depends on its rank among the cards, not
    on its place in the document: an element that is no card, put
    anywhere into the tree, shifts no delay. *)
Theorem non_card_does_not_shift (attrs : gmap node (list string)) (q : bool)
    (l1 l2 : list node) (x : node) (t0 : Z) :
  x ∉ snapshot {| tree := l1 ++ x :: l2; classAttr := attrs; quirks := q |} →
  snapshot {| tree := l1 ++ x :: l2; classAttr := attrs; quirks := q |} =
    snapshot {| tree := l1 ++ l2; classAttr := attrs; quirks := q |} ∧
  timers (ready {| tree := l1 ++ x :: l2; classAttr := attrs; quirks := q |} t0) =
    timers (ready {| tree := l1 ++ l2; classAttr := attrs; quirks := q |} t0).
Proof.
  intros Hx.
  assert (snapshot {| tree := l1 ++ x :: l2; classAttr := attrs; quirks := q |} =
          snapshot {| tree := l1 ++ l2; classAttr := attrs; quirks := q |})
    as Hsame.
  { unfold snapshot in *. cbn [tree] in *.
    rewrite !filter_app. f_equal.
    rewrite filter_cons_False; [done |]. intros Hm. apply Hx.
    rewrite filter_app, elem_of_app. right.
    rewrite filter_cons_True by done. by left. }
  split; [done |]. rewrite !timers_ready. unfold scheduled. by rewrite Hsame.
Qed.

Lemma non_card_does_not_shift_witness :
  timers (ready Sample.padded 0) = timers (ready Sample.page 0).
Proof.
  destruct (non_card_does_not_shift (classAttr Sample.page) false
              [1; 4] [2; 3] 6 0)
    as [_ Hsame].
  - compute_done.
  - exact Hsame.
Defined.

Lemma ready_twice_eq d t0 :
  doc (ready_twice d t0) = d ∧
  timers (ready_twice d t0) = scheduled d t0 ++ scheduled d t0.
Proof.
  unfold ready_twice, DOMContentLoaded, bind, forEach.
  cbn [querySelectorAll]. rewrite forEach_from_setTimeout.
  cbn [snd doc now timers calls log]. rewrite ready_eq. done.
Qed.

(** X10. A page that includes the script twice gets every timer twice:
    2N timers, two for each card with the same delay.  When they have
    all fired and nobody else has touched the document, the page is
    as one copy of the script would have left it: each card has
    [revealed] added to the class names it had, and nothing else has
    changed. *)
Theorem listener_twice (d : Document) (t0 : Z) (es : list Event)
    (tr : list Firing) (w : World) (el : node) :
  forallb undisturbed es = true →
  run es (ready_twice d t0) = Some (tr, w) →
  timers w = [] →
  timers (ready_twice d t0) = timers (ready d t0) ++ timers (ready d t0) ∧
  length tr = 2 * length (snapshot d) ∧
  tree (doc w) = tree d ∧
  (∀ tok, tok ∈ classList (doc w) el ↔
          tok ∈ classList d el ∨ (tok = revealed ∧ el ∈ snapshot d)) ∧
  (el ∉ snapshot d → classAttr (doc w) !! el = classAttr d !! el).
Proof.
  intros Hes Hrun Hnil.
  destruct (ready_twice_eq d t0) as [Hdoc Hts].
  pose proof (run_timers_Permutation _ _ _ _ Hrun) as Hperm.
  rewrite Hnil, app_nil_r, Hts in Hperm.
  assert (card_of ∘ fired <$> tr ≡ₚ snapshot d ++ snapshot d) as Hcards.
  { rewrite list_fmap_compose, Hperm, fmap_app. by rewrite card_of_scheduled. }
  assert (el ∈ (card_of ∘ fired <$> tr) ↔ el ∈ snapshot d) as Hel.
  { rewrite Hcards, elem_of_app. tauto. }
  destruct (run_frame _ _ _ _ Hes Hrun) as [Htree Hframe].
  rewrite Hdoc in Htree, Hframe.
  rewrite timers_ready. split_and!; try done.
  - apply Permutation_length in Hperm.
    rewrite length_fmap, length_app, length_scheduled in Hperm. lia.
  - intros tok. rewrite (run_classList _ _ _ _ Hes Hrun el tok), Hdoc, Hel.
    done.
  - intros Hnot. apply Hframe. by rewrite Hel.
Qed.

Lemma listener_twice_witness :
  length Sample.after_doubled.1 = 2 * length (snapshot Sample.page) ∧
  tree (doc Sample.after_doubled.2) = tree Sample.page.
Proof.
  destruct (listener_twice Sample.page 0 Sample.doubled
              Sample.after_doubled.1 Sample.after_doubled.2 2)
    as (_ & Hlen & Htree & _).
  - reflexivity.
  - vm_compute; reflexivity.
  - reflexivity.
  - split; [exact Hlen | exact Htree].
Defined.


(** X11. Nothing cancels a reveal.  The script keeps no timer handle,
    and a timer holds the element itself: whatever other code has done
    to the document since the ready signal, as long as a timer is left
    the host can run the oldest one once its delay has passed, and the
    card it was registered for, a card of the snapshot, then has
    [revealed] in its class set, also when it has lost [draw-card] or
    left the tree meanwhile.  The tree is not changed by it.  On a
    page of at most 3067834 cards that timer is the one of the next
    card in the order of the snapshot, due [700 * n] ms after the
    ready signal when [n] timers have fired. *)
Theorem next_card_is_revealed (d : Document) (t0 : Z) (es : list Event)
    (tr : list Firing) (w : World) (t : Timer) :
  run es (ready d t0) = Some (tr, w) →
  timers w !! 0 = Some t →
  ∃ w',
    run [Elapse (Z.to_N (due t - now w)); Fire 0] w =
      Some ([{| fired_at := Z.max (now w) (due t); fired := t |}], w') ∧
    card_of t ∈ snapshot d ∧
    revealed ∈ classList (doc w') (card_of t) ∧
    tree (doc w') = tree (doc w) ∧
    timers w' = drop 1 (timers w) ∧
    ((Z.of_nat (length (snapshot d)) ≤ 3067834)%Z →
     snapshot d !! length tr = Some (card_of t) ∧
     t = timer_for t0 (length tr) (card_of t) ∧
     due t = (t0 + 700 * Z.of_nat (length tr))%Z ∧
     timers w' = drop (S (length tr)) (timers (ready d t0))).
Proof.
  intros Hrun Ht.
  set (w1 := {| doc := doc w; timers := timers w; calls := calls w;
                now := (now w + Z.of_N (Z.to_N (due t - now w)))%Z |}).
  assert (now w1 = Z.max (now w) (due t)) as Hnow by (simpl; lia).
  assert (timers w1 = timers w) as Hts1 by done.
  assert (doc w1 = doc w) as Hdoc by done.
  assert (timers (reveal (card_of t) (without_timer 0 w1)) = drop 1 (timers w))
    as Hrest.
  { unfold reveal. simpl. by destruct (timers w). }
  exists (reveal (card_of t) (without_timer 0 w1)).
  rewrite run_cons. cbn [step]. fold w1. clearbody w1.
  rewrite run_cons, (step_Fire_Some 0 w1 t); [| by rewrite Hts1 | lia | done].
  cbn [run app]. rewrite Hnow. split_and!; [done | | | | done |].
  - apply (scheduled_card d t0), (run_ready_active _ _ _ _ _ _ Hrun).
    by eapply list_elem_of_lookup_2.
  - rewrite classList_reveal, decide_True by done.
    apply elem_of_set_append. by right.
  - unfold reveal. simpl. by rewrite Hdoc.
  - intros Hfits. destruct (run_ready _ _ Hfits _ _ _ Hrun) as (_ & Hts & _).
    rewrite Hts, lookup_drop, Nat.add_0_r in Ht.
    destruct (scheduled_delay _ _ Hfits _ _ Ht) as [_ Hdue].
    pose proof Ht as (card & Hcard & Htc)%scheduled_lookup_Some.
    assert (card_of t = card) as Hco by (by rewrite Htc).
    rewrite Hrest, Hts, drop_drop, timers_ready, Hco.
    split_and!; [done.. |]. f_equal. lia.
Qed.

Lemma next_card_is_revealed_witness :
  ∃ w',
    run [Elapse (Z.to_N (due (timer_for 0 2 3) - now Sample.after_meddled.2));
         Fire 0] Sample.after_meddled.2 =
      Some ([{| fired_at := Z.max (now Sample.after_meddled.2)
                              (due (timer_for 0 2 3));
                fired := timer_for 0 2 3 |}], w') ∧
    card_of (timer_for 0 2 3) ∈ snapshot Sample.page ∧
    revealed ∈ classList (doc w') (card_of (timer_for 0 2 3)) ∧
    tree (doc w') = tree (doc Sample.after_meddled.2).
Proof.
  destruct (next_card_is_revealed Sample.page 0 Sample.meddled
              Sample.after_meddled.1 Sample.after_meddled.2 (timer_for 0 2 3))
    as (w' & Hrun & Hcard & Hrev & Htree & _).
  - vm_compute; reflexivity.
  - reflexivity.
  - exists w'. by split_and!.
Defined.
